(** * IpcStreamFactory: the connection registry and the multiplexed
      poll loop of the diagnostics IPC layer
      (src/coreclr/src/vm/ipcstreamfactory.cpp).

    The C++ code is embedded shallowly.  The factory's statics, the
    per-connection objects and a log of every call that leaves the file
    are threaded through a small state monad; the transport
    (DiagnosticsIpc: Create, Listen, Connect, Accept, Poll, and the
    advertise handshake) is an oracle over an abstract world. *)

From Stdlib Require Import ZArith Lia Floats.SpecFloat.
From stdpp Require Import base numbers option list strings.

Local Open Scope Z_scope.

(** ** Machine arithmetic of [GetNextTimeout] *)

Module Float32.

(** IEEE-754 binary32, the C++ [float]: 24 bits of mantissa,
    infinities at exponent 128. *)
Definition prec : Z := 24.
Definition emax : Z := 128.

Definition int32_min : Z := - 2 ^ 31.
Definition int32_max : Z := 2 ^ 31 - 1.

Definition in_int32 (z : Z) : bool := (int32_min <=? z) && (z <=? int32_max).

(** [(float)i]: conversion of an integer, rounding to nearest even. *)
Definition of_int (i : Z) : spec_float := binary_normalize prec emax i 0 false.

(** [x * y] on floats. *)
Definition mul (x y : spec_float) : spec_float := SFmul prec emax x y.

(** The integral part of a finite float (truncation toward zero). *)
Definition trunc (f : spec_float) : option Z :=
  match f with
  | S754_zero _ => Some 0
  | S754_finite s m e =>
      let mag := match e with
                 | Zneg p => Z.shiftr (Zpos m) (Zpos p)
                 | _ => Z.shiftl (Zpos m) e
                 end in
      Some (if s then - mag else mag)
  | S754_infinity _ | S754_nan => None
  end.

(** [(int32_t)f]: the fractional part is discarded; the behaviour is
    undefined ([None]) when the truncated value is not an [int32_t]. *)
Definition to_int32 (f : spec_float) : option Z :=
  match trunc f with
  | Some z => if in_int32 z then Some z else None
  | None => None
  end.

End Float32.

(** ** The backoff constants

    [s_pollTimeoutInfinite], [s_pollTimeoutMinMs], [s_pollTimeoutMaxMs]
    and [s_pollTimeoutFalloffFactor] are declared in ipcstreamfactory.h,
    which is not among the sources; the functions below take them as
    parameters. *)

Record PollTimeouts := {
  s_pollTimeoutInfinite : Z;
  s_pollTimeoutMinMs : Z;
  s_pollTimeoutMaxMs : Z;
  s_pollTimeoutFalloffFactor : spec_float
}.

(** [IpcStreamFactory::GetNextTimeout]. *)
Definition GetNextTimeout (K : PollTimeouts) (currentTimeoutMs : Z) : option Z :=
  if currentTimeoutMs =? s_pollTimeoutInfinite K then
    Some (s_pollTimeoutMinMs K)
  else if currentTimeoutMs >=? s_pollTimeoutMaxMs K then
    Some (s_pollTimeoutMaxMs K)
  else
    Float32.to_int32
      (Float32.mul (Float32.of_int currentTimeoutMs) (s_pollTimeoutFalloffFactor K)).

(** The values the runtime's header gives the constants:
    infinite = -1, minimum = 10 ms, maximum = 500 ms, factor = 1.25f.
    The general results below hold for every choice of the constants;
    the concrete runs are evaluated at these. *)
Definition runtime_timeouts : PollTimeouts := {|
  s_pollTimeoutInfinite := -1;
  s_pollTimeoutMinMs := 10;
  s_pollTimeoutMaxMs := 500;
  s_pollTimeoutFalloffFactor := binary_normalize Float32.prec Float32.emax 5 (-2) false
|}.

(** The runtime's constants with another maximum, or another minimum. *)
Definition with_maximum (mx : Z) : PollTimeouts := {|
  s_pollTimeoutInfinite := -1;
  s_pollTimeoutMinMs := 10;
  s_pollTimeoutMaxMs := mx;
  s_pollTimeoutFalloffFactor := s_pollTimeoutFalloffFactor runtime_timeouts
|}.

Definition with_minimum (mn : Z) : PollTimeouts := {|
  s_pollTimeoutInfinite := -1;
  s_pollTimeoutMinMs := mn;
  s_pollTimeoutMaxMs := 500;
  s_pollTimeoutFalloffFactor := s_pollTimeoutFalloffFactor runtime_timeouts
|}.

(** The timeouts of [n] consecutive rounds in which some connection
    failed to produce a poll handle, starting from [t]. *)
Fixpoint backoff (K : PollTimeouts) (n : nat) (t : Z) : list (option Z) :=
  match n with
  | O => []
  | S n' =>
      match GetNextTimeout K t with
      | Some t' => Some t' :: backoff K n' t'
      | None => [None]
      end
  end.

(** ** Data model *)

(** Objects are named by their identity: an [IpcStream*] or a
    [DiagnosticsIpc*] is the number of the object it points to, the null
    pointer is [None].  Every successful [Connect], [Accept] or [Create]
    makes a new object. *)
Definition IpcStream := nat.
Definition DiagnosticsIpc := nat.

Inductive ConnectionMode := CLIENT | SERVER.

#[global] Instance ConnectionMode_eq_dec : EqDecision ConnectionMode.
Proof. solve_decision. Defined.

(** Modelled from the spec: [DiagnosticsIpc::PollEvents] is declared in
    the transport's header, which is not among the sources; Poll
    annotates each handle with one of none / hangup / signaled / error.
    The loop names [HANGUP], [SIGNALED] and [ERR]; [UNKNOWN] stands for
    every other non-zero value of the [revents] byte, which reaches the
    [default] label like [NONE]. *)
Inductive PollEvents := NONE | SIGNALED | HANGUP | ERR | UNKNOWN.

#[global] Instance PollEvents_eq_dec : EqDecision PollEvents.
Proof. solve_decision. Defined.

(** [DiagnosticsIpc::IpcPollHandle], with the fields in the order of
    the initialisers [{ _pIpc, nullptr, 0, this }] and
    [{ nullptr, _pStream, 0, this }].  [pUserData] points to the owning
    connection state; the registry never moves or removes an entry, so
    the pointer is the entry's position in [s_rgpConnectionStates]. *)
Record IpcPollHandle := {
  pIpc : option DiagnosticsIpc;
  pStream : option IpcStream;
  revents : PollEvents;
  pUserData : nat
}.

#[global] Instance IpcPollHandle_eq_dec : EqDecision IpcPollHandle.
Proof. solve_decision. Defined.

(** The two subclasses of [IpcStreamFactory::ConnectionState], with the
    members their methods use: the endpoint [_pIpc] and, for a client,
    the cached stream [_pStream]. *)
Inductive ConnectionState :=
| ClientConnectionState (_pIpc : DiagnosticsIpc) (_pStream : option IpcStream)
| ServerConnectionState (_pIpc : DiagnosticsIpc).

#[global] Instance ConnectionState_eq_dec : EqDecision ConnectionState.
Proof. solve_decision. Defined.

(** Calls that leave the file, in program order. *)
Inductive Event :=
| EvCreate (pIpcName : string) (mode : ConnectionMode) (res : option DiagnosticsIpc)
| EvListen (ipc : DiagnosticsIpc) (ok : bool)
| EvDeleteIpc (ipc : DiagnosticsIpc)
| EvConnect (ipc : DiagnosticsIpc) (res : option IpcStream)
| EvAdvertise (s : IpcStream) (ok : bool)
| EvAccept (ipc : DiagnosticsIpc) (res : option IpcStream)
| EvPoll (rgIpcPollHandles : list IpcPollHandle) (timeoutMs : Z) (retval : Z)
| EvCallback (msg : string) (code : Z)
| EvDelete (s : IpcStream)
| EvClose (this : nat) (isShutdown : bool).

#[global] Instance Event_eq_dec : EqDecision Event.
Proof. solve_decision. Defined.

(** Modelled from the spec: the transport ([DiagnosticsIpc::Create],
    [Listen], [Connect], [Accept], [Poll] and the advertise handshake
    [SendIpcAdvertise_V1]) is an external collaborator.  Each call asks
    the world for its answer: success or failure, and for [Poll] the
    return value and the [revents] it wrote.  [W] is the state of
    everything outside the factory; every sequence of answers is the
    behaviour of some world. *)
Record Transport (W : Type) := {
  ipc_Create : string → ConnectionMode → W → bool * W;
  ipc_Listen : DiagnosticsIpc → W → bool * W;
  ipc_Connect : DiagnosticsIpc → W → bool * W;
  ipc_Accept : DiagnosticsIpc → W → bool * W;
  ipc_SendIpcAdvertise_V1 : IpcStream → W → bool * W;
  ipc_Poll : list IpcPollHandle → Z → W → (Z * list PollEvents) * W
}.
Arguments ipc_Create {W}.
Arguments ipc_Listen {W}.
Arguments ipc_Connect {W}.
Arguments ipc_Accept {W}.
Arguments ipc_SendIpcAdvertise_V1 {W}.
Arguments ipc_Poll {W}.

(** The factory's statics, the object counters and the log. *)
Record State (W : Type) := {
  world : W;
  s_rgpConnectionStates : list ConnectionState;
  s_isShutdown : bool;
  next_stream : nat;
  next_ipc : nat;
  trace : list Event
}.
Arguments world {W}.
Arguments s_rgpConnectionStates {W}.
Arguments s_isShutdown {W}.
Arguments next_stream {W}.
Arguments next_ipc {W}.
Arguments trace {W}.

(** What one pass of the [for] loop over the returned handles decides. *)
Inductive Classified :=
| PollError
| Classify_done (pStream : option IpcStream) (pollTimeoutMs : Z).

(** What one iteration of the [while] loop decides. *)
Inductive Step :=
| Continue (pollTimeoutMs : Z)
| Return (pStream : option IpcStream)
| Undefined.

(** What a bounded run of [GetNextAvailableStream] ends with. *)
Inductive Outcome :=
| OutOfFuel (pollTimeoutMs : Z)
| UndefinedBehaviour
| Returned (pStream : option IpcStream).

(** [Poll] writes the [revents] field of the handles it was given. *)
Definition set_revents (h : IpcPollHandle) (r : PollEvents) : IpcPollHandle :=
  {| pIpc := pIpc h; pStream := pStream h; revents := r; pUserData := pUserData h |}.

Fixpoint write_revents (hs : list IpcPollHandle) (rs : list PollEvents)
  : list IpcPollHandle :=
  match hs, rs with
  | h :: hs', r :: rs' => set_revents h r :: write_revents hs' rs'
  | _, _ => hs
  end.

Section Factory.

Context {W : Type}.
Variable T : Transport W.
Variable K : PollTimeouts.

(** *** The state monad *)

Definition M (A : Type) : Type := State W → A * State W.

Definition ret {A} (a : A) : M A := fun st => (a, st).

Definition bind {A B} (m : M A) (k : A → M B) : M B :=
  fun st => let (a, st') := m st in k a st'.

Notation "'do' x <- m ; k" := (bind m (fun x => k))
  (at level 10, x pattern, m at level 100, k at level 200).
Notation "m ;; k" := (bind m (fun _ => k))
  (at level 100, k at level 200, right associativity).

Definition get_connections : M (list ConnectionState) :=
  fun st => (s_rgpConnectionStates st, st).

Definition set_connections (l : list ConnectionState) : M unit :=
  fun st => (tt, {| world := world st; s_rgpConnectionStates := l;
                    s_isShutdown := s_isShutdown st;
                    next_stream := next_stream st; next_ipc := next_ipc st;
                    trace := trace st |}).

(** [*this] of the connection state at position [this]. *)
Definition load (this : nat) : M (option ConnectionState) :=
  do l <- get_connections; ret (l !! this).

Definition store (this : nat) (c : ConnectionState) : M unit :=
  do l <- get_connections; set_connections (<[this := c]> l).

Definition emit (e : Event) : M unit :=
  fun st => (tt, {| world := world st;
                    s_rgpConnectionStates := s_rgpConnectionStates st;
                    s_isShutdown := s_isShutdown st;
                    next_stream := next_stream st; next_ipc := next_ipc st;
                    trace := trace st ++ [e] |}).

(** Ask the world. *)
Definition ask {A} (f : W → A * W) : M A :=
  fun st => let (a, w) := f (world st) in
            (a, {| world := w;
                   s_rgpConnectionStates := s_rgpConnectionStates st;
                   s_isShutdown := s_isShutdown st;
                   next_stream := next_stream st; next_ipc := next_ipc st;
                   trace := trace st |}).

Definition new_stream : M IpcStream :=
  fun st => (next_stream st,
             {| world := world st;
                s_rgpConnectionStates := s_rgpConnectionStates st;
                s_isShutdown := s_isShutdown st;
                next_stream := S (next_stream st); next_ipc := next_ipc st;
                trace := trace st |}).

Definition new_ipc : M DiagnosticsIpc :=
  fun st => (next_ipc st,
             {| world := world st;
                s_rgpConnectionStates := s_rgpConnectionStates st;
                s_isShutdown := s_isShutdown st;
                next_stream := next_stream st; next_ipc := S (next_ipc st);
                trace := trace st |}).

Definition set_shutdown (b : bool) : M unit :=
  fun st => (tt, {| world := world st;
                    s_rgpConnectionStates := s_rgpConnectionStates st;
                    s_isShutdown := b;
                    next_stream := next_stream st; next_ipc := next_ipc st;
                    trace := trace st |}).

(** The statics as initialised: an empty registry, not shut down. *)
Definition initial (w : W) : State W := {|
  world := w; s_rgpConnectionStates := []; s_isShutdown := false;
  next_stream := 0; next_ipc := 0; trace := []
|}.

(** [if (callback != nullptr) callback(msg, code);] *)
Definition report (callback : bool) (msg : string) (code : Z) : M unit :=
  if callback then emit (EvCallback msg code) else ret tt.

(** *** The transport's calls *)

Definition Create (pIpcName : string) (mode : ConnectionMode) : M (option DiagnosticsIpc) :=
  do ok <- ask (ipc_Create T pIpcName mode);
  if ok : bool then
    do p <- new_ipc; emit (EvCreate pIpcName mode (Some p));; ret (Some p)
  else emit (EvCreate pIpcName mode None);; ret None.

Definition Listen (ipc : DiagnosticsIpc) : M bool :=
  do ok <- ask (ipc_Listen T ipc); emit (EvListen ipc ok);; ret ok.

Definition Connect (ipc : DiagnosticsIpc) : M (option IpcStream) :=
  do ok <- ask (ipc_Connect T ipc);
  if ok : bool then
    do s <- new_stream; emit (EvConnect ipc (Some s));; ret (Some s)
  else emit (EvConnect ipc None);; ret None.

Definition Accept (ipc : DiagnosticsIpc) : M (option IpcStream) :=
  do ok <- ask (ipc_Accept T ipc);
  if ok : bool then
    do s <- new_stream; emit (EvAccept ipc (Some s));; ret (Some s)
  else emit (EvAccept ipc None);; ret None.

Definition SendIpcAdvertise_V1 (s : IpcStream) : M bool :=
  do ok <- ask (ipc_SendIpcAdvertise_V1 T s); emit (EvAdvertise s ok);; ret ok.

Definition Poll (hs : list IpcPollHandle) (timeoutMs : Z)
  : M (Z * list IpcPollHandle) :=
  do a <- ask (ipc_Poll T hs timeoutMs);
  let hs' := write_revents hs (snd a) in
  emit (EvPoll hs' timeoutMs (fst a));; ret (fst a, hs').

(** *** ClientConnectionState and ServerConnectionState *)

Definition ClientConnectionState_GetIpcPollHandle
    (this : nat) (_pIpc : DiagnosticsIpc) (_pStream : option IpcStream)
    (callback : bool) : M (option IpcPollHandle) :=
  match _pStream with
  | None =>
      do pConnection <- Connect _pIpc;
      match pConnection with
      | None =>
          report callback "Failed to connect to client connection" (-1);;
          ret None
      | Some s =>
          do ok <- SendIpcAdvertise_V1 s;
          if ok : bool then
            store this (ClientConnectionState _pIpc (Some s));;
            ret (Some {| pIpc := None; pStream := Some s;
                         revents := NONE; pUserData := this |})
          else
            report callback "Failed to send advertise message" (-1);;
            emit (EvDelete s);;
            ret None
      end
  | Some s =>
      ret (Some {| pIpc := None; pStream := Some s;
                   revents := NONE; pUserData := this |})
  end.

Definition ClientConnectionState_GetConnectedStream
    (this : nat) (_pIpc : DiagnosticsIpc) (_pStream : option IpcStream)
    (callback : bool) : M (option IpcStream) :=
  store this (ClientConnectionState _pIpc None);; ret _pStream.

Definition ClientConnectionState_Reset
    (this : nat) (_pIpc : DiagnosticsIpc) (_pStream : option IpcStream)
    (callback : bool) : M unit :=
  match _pStream with
  | Some s => emit (EvDelete s)
  | None => ret tt
  end;;
  store this (ClientConnectionState _pIpc None).

Definition ServerConnectionState_GetIpcPollHandle
    (this : nat) (_pIpc : DiagnosticsIpc) (callback : bool)
    : M (option IpcPollHandle) :=
  ret (Some {| pIpc := Some _pIpc; pStream := None;
               revents := NONE; pUserData := this |}).

Definition ServerConnectionState_GetConnectedStream
    (this : nat) (_pIpc : DiagnosticsIpc) (callback : bool) : M (option IpcStream) :=
  Accept _pIpc.

Definition ServerConnectionState_Reset
    (this : nat) (_pIpc : DiagnosticsIpc) (callback : bool) : M unit :=
  ret tt.

(** Virtual dispatch on the object at [this].  A [this] outside the
    registry does not occur: handles are built from registry
    positions. *)
Definition GetIpcPollHandle (this : nat) (callback : bool) : M (option IpcPollHandle) :=
  do c <- load this;
  match c with
  | Some (ClientConnectionState ipc cached) =>
      ClientConnectionState_GetIpcPollHandle this ipc cached callback
  | Some (ServerConnectionState ipc) =>
      ServerConnectionState_GetIpcPollHandle this ipc callback
  | None => ret None
  end.

Definition GetConnectedStream (this : nat) (callback : bool) : M (option IpcStream) :=
  do c <- load this;
  match c with
  | Some (ClientConnectionState ipc cached) =>
      ClientConnectionState_GetConnectedStream this ipc cached callback
  | Some (ServerConnectionState ipc) =>
      ServerConnectionState_GetConnectedStream this ipc callback
  | None => ret None
  end.

Definition Reset (this : nat) (callback : bool) : M unit :=
  do c <- load this;
  match c with
  | Some (ClientConnectionState ipc cached) =>
      ClientConnectionState_Reset this ipc cached callback
  | Some (ServerConnectionState ipc) =>
      ServerConnectionState_Reset this ipc callback
  | None => ret tt
  end.

(** Modelled from the spec: [ConnectionState::Close(isShutdown,
    callback)] is defined in ipcstreamfactory.h, which is not among the
    sources; it releases the endpoint's transport resources and leaves
    the factory's state alone.  The call is recorded. *)
Definition Close (this : nat) (isShutdown : bool) (callback : bool) : M unit :=
  emit (EvClose this isShutdown).

(** *** IpcStreamFactory *)

Definition Push (c : ConnectionState) : M unit :=
  do l <- get_connections; set_connections (l ++ [c]).

Definition CreateServer (pIpcName : string) (callback : bool) : M bool :=
  do pIpc <- Create pIpcName SERVER;
  match pIpc with
  | Some ipc =>
      do ok <- Listen ipc;
      if ok : bool then Push (ServerConnectionState ipc);; ret true
      else emit (EvDeleteIpc ipc);; ret false
  | None => ret false
  end.

Definition CreateClient (pIpcName : string) (callback : bool) : M bool :=
  do pIpc <- Create pIpcName CLIENT;
  match pIpc with
  | Some ipc => Push (ClientConnectionState ipc None);; ret true
  | None => ret false
  end.

Definition HasActiveConnections : M bool :=
  fun st => (negb (s_isShutdown st) && (0 <? length (s_rgpConnectionStates st))%nat, st).

(** [for (i = 0; i < (uint32_t)Size(); i++) body(i)], from position [i]
    on, for a registry of fewer than 2^32 entries. *)
Fixpoint for_each (body : nat → M unit) (i n : nat) : M unit :=
  match n with
  | O => ret tt
  | S n' => body i;; for_each body (S i) n'
  end.

Definition Shutdown (callback : bool) : M unit :=
  fun st =>
    if s_isShutdown st then (tt, st)
    else (set_shutdown true;;
          do l <- get_connections;
          for_each (fun i => Close i true callback) 0 (length l)) st.

(** The first [for] loop of an iteration: ask every connection for its
    poll handle, from position [i] on. *)
Fixpoint collect_handles (callback : bool) (i n : nat)
  : M (list IpcPollHandle * bool) :=
  match n with
  | O => ret ([], true)
  | S n' =>
      do h <- GetIpcPollHandle i callback;
      do rest <- collect_handles callback (S i) n';
      match h with
      | Some pollHandle => ret (pollHandle :: fst rest, snd rest)
      | None => ret (fst rest, false)
      end
  end.

(** The second [for] loop: the [switch] on each handle's [revents]. *)
Fixpoint classify (callback : bool) (hs : list IpcPollHandle)
    (pStream : option IpcStream) (pollTimeoutMs : Z) : M Classified :=
  match hs with
  | [] => ret (Classify_done pStream pollTimeoutMs)
  | h :: hs' =>
      match revents h with
      | HANGUP =>
          Reset (pUserData h) callback;;
          classify callback hs' pStream (s_pollTimeoutMinMs K)
      | SIGNALED =>
          match pStream with
          | None =>
              do p <- GetConnectedStream (pUserData h) callback;
              classify callback hs' p pollTimeoutMs
          | Some _ => classify callback hs' pStream pollTimeoutMs
          end
      | ERR => ret PollError
      | _ => classify callback hs' pStream pollTimeoutMs
      end
  end.

(** The timeout of this iteration. *)
Definition next_poll_timeout (fConnectSuccess : bool) (pollTimeoutMs : Z) : option Z :=
  if fConnectSuccess then Some (s_pollTimeoutInfinite K)
  else GetNextTimeout K pollTimeoutMs.

(** The second half of an iteration: the [Poll] call and the pass
    over the handles it returned. *)
Definition poll_and_classify (callback : bool) (hs : list IpcPollHandle)
    (pollTimeoutMs : Z) : M Step :=
  do r <- Poll hs pollTimeoutMs;
  if fst r =? 0 then ret (Continue pollTimeoutMs)
  else
    do c <- classify callback (snd r) None pollTimeoutMs;
    match c with
    | PollError => ret (Return None)
    | Classify_done None t' => ret (Continue t')
    | Classify_done (Some s) _ => ret (Return (Some s))
    end.

(** One iteration of [while (pStream == nullptr)].  The [STRESS_LOG]
    lines and the attempt counter they print are left out. *)
Definition iteration (callback : bool) (pollTimeoutMs : Z) : M Step :=
  do l <- get_connections;
  do hb <- collect_handles callback 0 (length l);
  match next_poll_timeout (snd hb) pollTimeoutMs with
  | None => ret Undefined
  | Some t => poll_and_classify callback (fst hb) t
  end.

Fixpoint poll_loop (fuel : nat) (callback : bool) (pollTimeoutMs : Z) : M Outcome :=
  match fuel with
  | O => ret (OutOfFuel pollTimeoutMs)
  | S fuel' =>
      do s <- iteration callback pollTimeoutMs;
      match s with
      | Continue t => poll_loop fuel' callback t
      | Return p => ret (Returned p)
      | Undefined => ret UndefinedBehaviour
      end
  end.

(** [IpcStreamFactory::GetNextAvailableStream], run for at most [fuel]
    iterations. *)
Definition GetNextAvailableStream (fuel : nat) (callback : bool) : M Outcome :=
  poll_loop fuel callback (s_pollTimeoutInfinite K).

End Factory.

Arguments ret {W A} a st /.
Arguments bind {W A B} m k st /.

(** ** Teardown without shutdown *)

Section Teardown.

Context {W : Type}.

(** [CloseConnections] calls [Close(callback)], with one argument.  The
    declaration of [Close] is in the header, which is not among the
    sources: the value [isShutdown] has in such a call is the parameter
    [isShutdown_of], a function of the callback passed. *)
Variable isShutdown_of : bool → bool.

(** [IpcStreamFactory::CloseConnections]. *)
Definition CloseConnections (callback : bool) : M unit :=
  bind (get_connections (W:=W))
       (fun l => for_each (fun i => Close i (isShutdown_of callback) callback)
                   0 (length l)).

End Teardown.

(** ** A scripted world

    The world is the list of the transport's future answers; each call
    takes the next one.  It runs the factory on concrete scenarios. *)
Module Scripted.

Inductive Answer :=
| Yes
| No
| Polled (retval : Z) (rs : list PollEvents).

Definition World := list Answer.

Definition answer_bool (w : World) : bool * World :=
  match w with
  | Yes :: w' => (true, w')
  | _ :: w' => (false, w')
  | [] => (false, [])
  end.

Definition answer_poll (w : World) : (Z * list PollEvents) * World :=
  match w with
  | Polled retval rs :: w' => ((retval, rs), w')
  | _ :: w' => ((0, []), w')
  | [] => ((0, []), [])
  end.

Definition transport : Transport World := {|
  ipc_Create := fun _ _ => answer_bool;
  ipc_Listen := fun _ => answer_bool;
  ipc_Connect := fun _ => answer_bool;
  ipc_Accept := fun _ => answer_bool;
  ipc_SendIpcAdvertise_V1 := fun _ => answer_bool;
  ipc_Poll := fun _ _ => answer_poll
|}.

(** The factory before any registration, in a world that will give
    the answers [w]. *)
Definition start (w : World) : State World := initial w.

End Scripted.

(** ** Vocabulary of the properties *)

(** The events a run added to the log. *)
Definition new_events {W} (st st' : State W) : list Event :=
  drop (length (trace st)) (trace st').

(** The [Poll] calls among some events: the handles as [Poll] left
    them, the timeout passed, and the return value. *)
Definition polls (evs : list Event) : list (list IpcPollHandle * Z * Z) :=
  omap (fun e => match e with
                 | EvPoll hs t r => Some (hs, t, r)
                 | _ => None
                 end) evs.

(** The streams destroyed so far. *)
Definition deleted (evs : list Event) : list IpcStream :=
  omap (fun e => match e with EvDelete s => Some s | _ => None end) evs.

(** The loop looks at the handles of a [Poll] call only when the call
    returned non-zero; it then classifies the event [r] iff some handle
    carries it (and no earlier handle ended the pass). *)
Definition reports (r : PollEvents) (p : list IpcPollHandle * Z * Z) : Prop :=
  p.2 ≠ 0 ∧ r ∈ map revents p.1.1.

(** The events on which the [switch] does something. *)
Definition actionable (r : PollEvents) : bool :=
  match r with
  | HANGUP | SIGNALED | ERR => true
  | _ => false
  end.

(** Connection [i] of the registry [l] is a client that caches [s]. *)
Definition cached (l : list ConnectionState) (i : nat) (s : IpcStream) : Prop :=
  ∃ ipc, l !! i = Some (ClientConnectionState ipc (Some s)).

(** Well-formed ownership.  [out] are the streams handed to callers,
    [l] the registry, [n] the number of streams made so far, [del] the
    streams destroyed: a cached stream exists, is not destroyed, is not
    a caller's, and is cached by one connection only. *)
Record wf_own (out : list IpcStream) (l : list ConnectionState)
    (n : nat) (del : list IpcStream) : Prop := {
  wf_cached : ∀ i s, cached l i s → (s < n)%nat ∧ (s ∉ del) ∧ (s ∉ out);
  wf_unshared : ∀ i j s, cached l i s → cached l j s → i = j;
  wf_out : ∀ s, s ∈ out → (s < n)%nat;
  wf_deleted : ∀ s, s ∈ del → (s < n)%nat;
  wf_distinct : NoDup out
}.

Definition wf {W} (out : list IpcStream) (st : State W) : Prop :=
  wf_own out (s_rgpConnectionStates st) (next_stream st) (deleted (trace st)).

(** What [if (callback != nullptr) callback(msg, -1)] adds to the log. *)
Definition reported (callback : bool) (msg : string) : list Event :=
  if callback then [EvCallback msg (-1)] else [].

(** The [Close(true, callback)] calls of one pass over [n] connections. *)
Definition close_pass (n : nat) : list Event :=
  map (fun i => EvClose i true) (seq 0 n).

(** A run that polls nothing: it keeps the size of the registry and
    the shutdown flag, and adds events none of which is a [Poll]. *)
Definition quiet {W} (st st' : State W) : Prop :=
  length (s_rgpConnectionStates st') = length (s_rgpConnectionStates st)
  ∧ s_isShutdown st' = s_isShutdown st
  ∧ (next_stream st ≤ next_stream st')%nat
  ∧ ∃ evs, trace st' = trace st ++ evs ∧ polls evs = [].

(** The role and the endpoint of a connection: what never changes. *)
Definition shape (c : ConnectionState) : ConnectionMode * DiagnosticsIpc :=
  match c with
  | ClientConnectionState ipc _ => (CLIENT, ipc)
  | ServerConnectionState ipc => (SERVER, ipc)
  end.

Definition is_server (c : ConnectionState) : bool :=
  match c with
  | ServerConnectionState _ => true
  | ClientConnectionState _ _ => false
  end.

(** A connection that produces its poll handle without a transport
    call: a server, or a client with a cached stream. *)
Definition pollable (c : ConnectionState) : bool :=
  match c with
  | ServerConnectionState _ => true
  | ClientConnectionState _ cache => bool_decide (is_Some cache)
  end.

(** A client that has no cached stream. *)
Definition disconnected (c : ConnectionState) : bool :=
  match c with
  | ClientConnectionState _ None => true
  | _ => false
  end.

(** The state with another shutdown flag. *)
Definition with_shutdown {W} (b : bool) (st : State W) : State W :=
  {| world := world st;
     s_rgpConnectionStates := s_rgpConnectionStates st;
     s_isShutdown := b;
     next_stream := next_stream st; next_ipc := next_ipc st;
     trace := trace st |}.

(** [m] neither reads nor writes the shutdown flag. *)
Definition flagless {W A} (m : State W → A * State W) : Prop :=
  ∀ b st, m (with_shutdown b st) = ((m st).1, with_shutdown b (m st).2).

(** Ownership with its history: besides [wf_own], no stream was
    destroyed twice and no stream of a caller was destroyed. *)
Definition tidy_own (out : list IpcStream) (l : list ConnectionState)
    (n : nat) (del : list IpcStream) : Prop :=
  wf_own out l n del ∧ NoDup del ∧ ∀ s, s ∈ out → s ∉ del.

Definition tidy {W} (out : list IpcStream) (st : State W) : Prop :=
  tidy_own out (s_rgpConnectionStates st) (next_stream st) (deleted (trace st)).

(** The calls of [Close] among some events. *)
Definition closes (evs : list Event) : list (nat * bool) :=
  omap (fun e => match e with EvClose i b => Some (i, b) | _ => None end) evs.

(** The timeout of a recorded [Poll] call, and its handles. *)
Definition poll_timeout (p : list IpcPollHandle * Z * Z) : Z := p.1.2.
Definition poll_handles (p : list IpcPollHandle * Z * Z) : list IpcPollHandle := p.1.1.

(** ** Readings of the specification that the code is compared with *)

(** "After a round that classified a HANGUP, the timeout passed to the
    next round's Poll is the minimum, unless all connections produced a
    handle (then it is infinite)", for the factory built with the
    runtime's constants. *)
Definition hangup_then_minimum_timeout : Prop :=
  ∀ (W : Type) (T : Transport W) (callback : bool) (t t1 : Z) (st : State W) p q,
    (iteration T runtime_timeouts callback t st).1 = Continue t1 →
    polls (new_events st (iteration T runtime_timeouts callback t st).2) = [p] →
    reports HANGUP p →
    polls (new_events (iteration T runtime_timeouts callback t st).2
             (iteration T runtime_timeouts callback t1
                (iteration T runtime_timeouts callback t st).2).2) = [q] →
    (length q.1.1 < length (s_rgpConnectionStates st))%nat →
    q.1.2 = s_pollTimeoutMinMs runtime_timeouts.

(** "When a handle is classified SIGNALED and no stream has been
    claimed yet, the stream its connection hands over becomes the
    call's result", read on the first handle of the first round, whose
    connection is a client caching [s]. *)
Definition signaled_stream_is_result : Prop :=
  ∀ (W : Type) (T : Transport W) (fuel : nat) (callback : bool) (st : State W)
    h hs t retval s,
    head (polls (new_events st
            (GetNextAvailableStream T runtime_timeouts fuel callback st).2))
      = Some (h :: hs, t, retval) →
    retval ≠ 0 → revents h = SIGNALED → pStream h = Some s →
    (GetNextAvailableStream T runtime_timeouts fuel callback st).1
      = Returned (Some s).

(** ** Scenarios *)

(** Two clients are registered; the world then gives the answers [w]. *)
Definition two_clients (w : Scripted.World) : State Scripted.World :=
  (bind (CreateClient Scripted.transport "pipeA" true)
        (fun _ => CreateClient Scripted.transport "pipeB" true)
        (Scripted.start (Scripted.Yes :: Scripted.Yes :: w))).2.

(** A server and a client are registered. *)
Definition server_and_client (w : Scripted.World) : State Scripted.World :=
  (bind (CreateServer Scripted.transport "pipeA" true)
        (fun _ => CreateClient Scripted.transport "pipeB" true)
        (Scripted.start (Scripted.Yes :: Scripted.Yes :: Scripted.Yes :: w))).2.

(** One client is registered and has connected: it caches stream 0. *)
Definition connected_client (w : Scripted.World) : State Scripted.World :=
  (bind (CreateClient Scripted.transport "pipeB" true)
        (fun _ => GetIpcPollHandle Scripted.transport 0 true)
        (Scripted.start (Scripted.Yes :: Scripted.Yes :: Scripted.Yes :: w))).2.

(** One client is registered and has not connected yet. *)
Definition idle_client (w : Scripted.World) : State Scripted.World :=
  (CreateClient Scripted.transport "pipeB" true
     (Scripted.start (Scripted.Yes :: w))).2.

(** The first client connects and the second does not; the first then
    hangs up, and no peer is there in the next round. *)
Definition hangup_script : Scripted.World :=
  [Scripted.Yes; Scripted.Yes; Scripted.No; Scripted.Polled 1 [HANGUP];
   Scripted.No; Scripted.No; Scripted.Polled 0 []].

(** Both clients connect; the first is ready and the second is in error
    in the same round. *)
Definition signaled_and_error_script : Scripted.World :=
  [Scripted.Yes; Scripted.Yes; Scripted.Yes; Scripted.Yes;
   Scripted.Polled 2 [SIGNALED; ERR]].

(** The client connects; server and client are ready in the same round
    and the server's accept succeeds; the client is still ready in the
    next call. *)
Definition both_ready_script : Scripted.World :=
  [Scripted.Yes; Scripted.Yes; Scripted.Polled 2 [SIGNALED; SIGNALED];
   Scripted.Yes; Scripted.Polled 1 [NONE; SIGNALED]].

(** A world in which no peer is ever there: [Connect] fails, [Poll]
    times out, everything else succeeds. *)
Definition absent_peers : Transport unit := {|
  ipc_Create := fun _ _ w => (true, w);
  ipc_Listen := fun _ w => (true, w);
  ipc_Connect := fun _ w => (false, w);
  ipc_Accept := fun _ w => (true, w);
  ipc_SendIpcAdvertise_V1 := fun _ w => (true, w);
  ipc_Poll := fun _ _ w => ((0, []), w)
|}.

(** One client registered in that world. *)
Definition lonely_client : State unit :=
  (CreateClient absent_peers "pipeB" true (initial tt)).2.

(** Two servers registered in a scripted world. *)
Definition two_servers (w : Scripted.World) : State Scripted.World :=
  (bind (CreateServer Scripted.transport "pipeA" true)
        (fun _ => CreateServer Scripted.transport "pipeC" true)
        (Scripted.start (Scripted.Yes :: Scripted.Yes :: Scripted.Yes
                           :: Scripted.Yes :: w))).2.

(** Both clients connect; the first hangs up and the second is ready
    in the same round. *)
Definition hangup_and_signaled_script : Scripted.World :=
  [Scripted.Yes; Scripted.Yes; Scripted.Yes; Scripted.Yes;
   Scripted.Polled 2 [HANGUP; SIGNALED]].

(** A round that times out, then the second server is ready and its
    accept succeeds. *)
Definition second_server_ready_script : Scripted.World :=
  [Scripted.Polled 0 []; Scripted.Polled 1 [NONE; SIGNALED]; Scripted.Yes].

(** The runtime's backoff, from the first incomplete round to the
    first round above the maximum. *)
Definition runtime_backoff : list Z :=
  [10; 12; 15; 18; 22; 27; 33; 41; 51; 63; 78; 97; 121; 151;
   188; 235; 293; 366; 457; 571].

(** The timeouts of the runtime's backoff: its growth and the
    maximum it then stays at. *)
Definition runtime_timeout_values : list Z := 500 :: runtime_backoff.

(** [GetNextTimeout] with the runtime's constants takes [t] to one of
    these values. *)
Definition stays_in_runtime_values (t : Z) : bool :=
  match GetNextTimeout runtime_timeouts t with
  | Some t' => bool_decide (t' ∈ runtime_timeout_values)
  | None => false
  end.

(** Every stream made so far has an owner or an end: it is cached by a
    connection, or it was destroyed, or it is one of [out] (handed to a
    caller, or pending for the caller of the running call). *)
Definition accounted_own (out : list IpcStream) (l : list ConnectionState)
    (n : nat) (del : list IpcStream) : Prop :=
  ∀ s, (s < n)%nat → (∃ i, cached l i s) ∨ s ∈ del ∨ s ∈ out.

Definition accounted {W} (out : list IpcStream) (st : State W) : Prop :=
  accounted_own out (s_rgpConnectionStates st) (next_stream st) (deleted (trace st)).

(** Both clients connect; the first is ready and the second is in error
    in the same round.  In the next call the first client's peer is
    there again and the second client is ready. *)
Definition signaled_and_error_then_retry_script : Scripted.World :=
  [Scripted.Yes; Scripted.Yes; Scripted.Yes; Scripted.Yes;
   Scripted.Polled 2 [SIGNALED; ERR];
   Scripted.Yes; Scripted.Yes; Scripted.Polled 1 [NONE; SIGNALED]].

(** * Properties *)

Section FactoryFacts.

Context {W : Type}.
Variable T : Transport W.
Variable K : PollTimeouts.

Implicit Types (st : State W) (callback : bool) (this : nat).

(** ** Registration, shutdown *)

Lemma for_each_Close callback n : ∀ i st,
  for_each (fun i => Close i true callback) i n st =
  (tt, {| world := world st;
          s_rgpConnectionStates := s_rgpConnectionStates st;
          s_isShutdown := s_isShutdown st;
          next_stream := next_stream st; next_ipc := next_ipc st;
          trace := trace st ++ map (fun i => EvClose i true) (seq i n) |}).
Proof.
  induction n as [|n IH]; intros i st; simpl.
  - rewrite app_nil_r. by destruct st.
  - rewrite IH. simpl. by rewrite <- app_assoc.
Qed.

Lemma Shutdown_eq callback st :
  Shutdown callback st =
  (tt, if s_isShutdown st then st
       else {| world := world st;
               s_rgpConnectionStates := s_rgpConnectionStates st;
               s_isShutdown := true;
               next_stream := next_stream st; next_ipc := next_ipc st;
               trace := trace st ++ close_pass (length (s_rgpConnectionStates st)) |}).
Proof.
  unfold Shutdown. destruct (s_isShutdown st) eqn:E; [done|].
  simpl. by rewrite for_each_Close.
Qed.

(** C6.  [Shutdown] does nothing when the flag is set; otherwise it
    sets the flag and then calls [Close(true, callback)] once on each
    registered connection, in order.  A second [Shutdown] leaves the
    state of the first untouched, so two calls make one pass. *)
Theorem Shutdown_idempotent callback callback' st :
  Shutdown callback st =
    (tt, if s_isShutdown st then st
         else {| world := world st;
                 s_rgpConnectionStates := s_rgpConnectionStates st;
                 s_isShutdown := true;
                 next_stream := next_stream st; next_ipc := next_ipc st;
                 trace := trace st ++ close_pass (length (s_rgpConnectionStates st)) |})
  ∧ s_isShutdown (Shutdown callback st).2 = true
  ∧ Shutdown callback' (Shutdown callback st).2 = (tt, (Shutdown callback st).2)
  ∧ ∀ i, length (filter (fun e => e = EvClose i true)
                   (close_pass (length (s_rgpConnectionStates st)))) =
         if decide (i < length (s_rgpConnectionStates st))%nat then 1%nat else 0%nat.
Proof.
  split; [apply Shutdown_eq|].
  split; [rewrite Shutdown_eq; simpl; by destruct (s_isShutdown st) eqn:E|].
  split.
  - rewrite (Shutdown_eq callback' _), (Shutdown_eq callback st). simpl.
    by destruct (s_isShutdown st) eqn:E; simpl; rewrite ?E.
  - intros i. unfold close_pass.
    generalize (length (s_rgpConnectionStates st)). clear.
    assert (Hnone : ∀ a b, (∀ j, j ∈ seq a b → j ≠ i) →
              filter (fun e => e = EvClose i true)
                (map (fun i => EvClose i true) (seq a b)) = []).
    { intros a b. induction (seq a b) as [|x l IH]; intros H; [done|].
      simpl. rewrite filter_cons_False.
      - apply IH. intros j Hj. apply H. rewrite elem_of_cons. by right.
      - intros [= ->]. apply (H i); [|done]. rewrite elem_of_cons. by left. }
    intros n. case_decide as Hi.
    + replace n with (i + (1 + (n - i - 1)))%nat by lia.
      rewrite seq_app, map_app, filter_app. simpl.
      rewrite filter_cons_True by done.
      rewrite length_app. simpl.
      rewrite !Hnone; [done | |].
      * intros j Hj%elem_of_seq. lia.
      * intros j Hj%elem_of_seq. lia.
    + rewrite Hnone; [done|]. intros j Hj%elem_of_seq. lia.
Qed.

Lemma CreateServer_true pIpcName callback st :
  (CreateServer T pIpcName callback st).1 = true →
  ∃ ipc, s_rgpConnectionStates (CreateServer T pIpcName callback st).2 =
           s_rgpConnectionStates st ++ [ServerConnectionState ipc]
         ∧ s_isShutdown (CreateServer T pIpcName callback st).2 = s_isShutdown st.
Proof.
  unfold CreateServer, Create, Listen, ask. simpl.
  destruct (ipc_Create T pIpcName SERVER (world st)) as [[] w]; simpl; [|done].
  destruct (ipc_Listen T (next_ipc st) w) as [[] w']; simpl; [|done].
  intros _. by eexists.
Qed.

Lemma CreateClient_true pIpcName callback st :
  (CreateClient T pIpcName callback st).1 = true →
  ∃ ipc, s_rgpConnectionStates (CreateClient T pIpcName callback st).2 =
           s_rgpConnectionStates st ++ [ClientConnectionState ipc None]
         ∧ s_isShutdown (CreateClient T pIpcName callback st).2 = s_isShutdown st.
Proof.
  unfold CreateClient, Create, ask. simpl.
  destruct (ipc_Create T pIpcName CLIENT (world st)) as [[] w]; simpl; [|done].
  intros _. by eexists.
Qed.

Lemma HasActiveConnections_iff st :
  (HasActiveConnections st).1 = true ↔
  s_isShutdown st = false ∧ (0 < length (s_rgpConnectionStates st))%nat.
Proof.
  unfold HasActiveConnections. simpl.
  rewrite andb_true_iff, negb_true_iff, Nat.ltb_lt. done.
Qed.

(** C8.  [HasActiveConnections] is true iff the shutdown flag is
    false and a connection is registered, and changes nothing; it is
    false on the initial state, true after a [CreateServer] or
    [CreateClient] that returned true (on a factory not shut down),
    and false after [Shutdown] whatever was registered. *)
Theorem HasActiveConnections_spec st :
  ((HasActiveConnections st).1 = true ↔
     s_isShutdown st = false ∧ (0 < length (s_rgpConnectionStates st))%nat)
  ∧ (HasActiveConnections st).2 = st
  ∧ (∀ w : W, (HasActiveConnections (initial w)).1 = false)
  ∧ (∀ pIpcName callback,
       s_isShutdown st = false →
       (CreateServer T pIpcName callback st).1 = true →
       (HasActiveConnections (CreateServer T pIpcName callback st).2).1 = true)
  ∧ (∀ pIpcName callback,
       s_isShutdown st = false →
       (CreateClient T pIpcName callback st).1 = true →
       (HasActiveConnections (CreateClient T pIpcName callback st).2).1 = true)
  ∧ (∀ callback, (HasActiveConnections (Shutdown callback st).2).1 = false).
Proof.
  split; [apply HasActiveConnections_iff|].
  split; [done|]. split; [done|].
  split; [|split].
  - intros n cb Hs Hok. apply HasActiveConnections_iff.
    destruct (CreateServer_true _ _ _ Hok) as (ipc & -> & ->).
    split; [done|]. rewrite length_app. simpl. lia.
  - intros n cb Hs Hok. apply HasActiveConnections_iff.
    destruct (CreateClient_true _ _ _ Hok) as (ipc & -> & ->).
    split; [done|]. rewrite length_app. simpl. lia.
  - intros cb. rewrite Shutdown_eq. simpl.
    unfold HasActiveConnections. simpl.
    by destruct (s_isShutdown st) eqn:E; simpl; rewrite ?E.
Qed.

(** ** The pass over the returned handles *)

(** C9.  A handle whose event is none of [HANGUP], [SIGNALED], [ERR]
    is passed over: the pass gives the same result and the same state
    (registry, log, pending stream, timeout variable) as without
    that handle. *)
Theorem classify_ignores_other_events callback h hs pStream pollTimeoutMs st :
  actionable (revents h) = false →
  classify T K callback (h :: hs) pStream pollTimeoutMs st =
  classify T K callback hs pStream pollTimeoutMs st.
Proof. simpl. by destruct (revents h). Qed.

Lemma classify_filter callback hs : ∀ pStream pollTimeoutMs st,
  classify T K callback hs pStream pollTimeoutMs st =
  classify T K callback (filter (fun h => actionable (revents h) = true) hs)
    pStream pollTimeoutMs st.
Proof.
  induction hs as [|h hs IH]; intros p t st; [done|].
  destruct (actionable (revents h)) eqn:E.
  - rewrite filter_cons_True by done.
    simpl. destruct (revents h); try done; simpl.
    + destruct p; [apply IH|]. unfold bind.
      destruct (GetConnectedStream T (pUserData h) callback st). apply IH.
    + unfold bind. destruct (Reset (pUserData h) callback st). apply IH.
  - rewrite filter_cons_False by (rewrite E; done).
    rewrite <- IH. simpl. by destruct (revents h).
Qed.

(** ** What the connection states add to the log *)

Lemma new_events_app st st' evs :
  trace st' = trace st ++ evs → new_events st st' = evs.
Proof. intros H. unfold new_events. rewrite H. by rewrite drop_app_length. Qed.

Lemma polls_app evs evs' : polls (evs ++ evs') = polls evs ++ polls evs'.
Proof. unfold polls. apply omap_app. Qed.

Lemma deleted_app evs evs' : deleted (evs ++ evs') = deleted evs ++ deleted evs'.
Proof. unfold deleted. apply omap_app. Qed.

Lemma quiet_refl st : quiet st st.
Proof.
  repeat split; try done. exists []. by rewrite app_nil_r.
Qed.

Lemma quiet_trans st1 st2 st3 : quiet st1 st2 → quiet st2 st3 → quiet st1 st3.
Proof.
  intros (Hl & Hs & Hn & evs & Ht & Hp) (Hl' & Hs' & Hn' & evs' & Ht' & Hp').
  repeat split; [congruence | congruence | lia |].
  exists (evs ++ evs'). split.
  - rewrite Ht', Ht. by rewrite app_assoc.
  - by rewrite polls_app, Hp, Hp'.
Qed.

(** Run a monadic term: take the world's answers one at a time. *)
Ltac run :=
  repeat (simpl;
    match goal with
    | |- context [ipc_Create T ?n ?m ?w] =>
        destruct (ipc_Create T n m w) as [[] ?] eqn:?
    | |- context [ipc_Listen T ?a ?w] =>
        destruct (ipc_Listen T a w) as [[] ?] eqn:?
    | |- context [ipc_Connect T ?a ?w] =>
        destruct (ipc_Connect T a w) as [[] ?] eqn:?
    | |- context [ipc_Accept T ?a ?w] =>
        destruct (ipc_Accept T a w) as [[] ?] eqn:?
    | |- context [ipc_SendIpcAdvertise_V1 T ?a ?w] =>
        destruct (ipc_SendIpcAdvertise_V1 T a w) as [[] ?] eqn:?
    | |- context [ipc_Poll T ?h ?t ?w] =>
        destruct (ipc_Poll T h t w) as [[? ?] ?] eqn:?
    | |- context [if ?x then _ else _] => is_var x; destruct x
    end); simpl.

Ltac quiet_now :=
  repeat split; simpl; rewrite ?length_insert; try done; try lia;
  rewrite <- ?app_assoc;
  first [ by eexists | by (exists []; rewrite app_nil_r) ].

Lemma GetIpcPollHandle_quiet this callback st :
  quiet st (GetIpcPollHandle T this callback st).2.
Proof.
  unfold GetIpcPollHandle, load. simpl.
  destruct (s_rgpConnectionStates st !! this) as [[ipc [s|]|ipc]|];
    simpl; try apply quiet_refl.
  unfold ClientConnectionState_GetIpcPollHandle, Connect, SendIpcAdvertise_V1,
    report, ask, store.
  run; quiet_now.
Qed.

Lemma GetConnectedStream_quiet this callback st :
  quiet st (GetConnectedStream T this callback st).2.
Proof.
  unfold GetConnectedStream, load. simpl.
  destruct (s_rgpConnectionStates st !! this) as [[ipc c|ipc]|];
    simpl; try apply quiet_refl.
  - quiet_now.
  - unfold ServerConnectionState_GetConnectedStream, Accept, ask.
    run; quiet_now.
Qed.

Lemma Reset_quiet this callback st : quiet st (Reset this callback st).2.
Proof.
  unfold Reset, load. simpl.
  destruct (s_rgpConnectionStates st !! this) as [[ipc [s|]|ipc]|];
    simpl; try apply quiet_refl; quiet_now.
Qed.

Lemma collect_handles_quiet callback n : ∀ i st,
  quiet st (collect_handles T callback i n st).2.
Proof.
  induction n as [|n IH]; intros i st; simpl; [apply quiet_refl|].
  pose proof (GetIpcPollHandle_quiet i callback st) as H1.
  destruct (GetIpcPollHandle T i callback st) as [h st1].
  pose proof (IH (S i) st1) as H2.
  destruct (collect_handles T callback (S i) n st1) as [rest st2].
  simpl in *. destruct h; simpl; by eapply quiet_trans.
Qed.

Lemma classify_quiet callback hs : ∀ pStream pollTimeoutMs st,
  quiet st (classify T K callback hs pStream pollTimeoutMs st).2.
Proof.
  induction hs as [|h hs IH]; intros p t st; simpl; [apply quiet_refl|].
  destruct (revents h); simpl; try apply IH; try apply quiet_refl.
  - destruct p; [apply IH|]. simpl.
    pose proof (GetConnectedStream_quiet (pUserData h) callback st) as H1.
    destruct (GetConnectedStream T (pUserData h) callback st) as [p st1].
    eapply quiet_trans; [exact H1|apply IH].
  - pose proof (Reset_quiet (pUserData h) callback st) as H1.
    destruct (Reset (pUserData h) callback st) as [u st1].
    eapply quiet_trans; [exact H1|apply IH].
Qed.

(** ** Ownership of streams *)

Lemma cached_insert l i c j s :
  cached (<[i:=c]> l) j s →
  (j = i ∧ ∃ ipc, c = ClientConnectionState ipc (Some s)) ∨ (j ≠ i ∧ cached l j s).
Proof.
  intros [ipc H]. destruct (decide (j = i)) as [->|Hne].
  - left. split; [done|]. exists ipc.
    apply list_lookup_insert_Some in H as [(_ & -> & _)|(? & _)]; done.
  - right. split; [done|]. exists ipc. by rewrite list_lookup_insert_ne in H.
Qed.

Lemma wf_own_next out l n n' del :
  (n ≤ n')%nat → wf_own out l n del → wf_own out l n' del.
Proof.
  intros Hle [Hc Hu Ho Hd Hn]. split; [|done| | |done].
  - intros i s H. destruct (Hc i s H) as (? & ? & ?). repeat split; [lia|done..].
  - intros s H. specialize (Ho s H). lia.
  - intros s H. specialize (Hd s H). lia.
Qed.

(** A stream just made is cached by the client that was empty. *)
Lemma wf_own_cache_fresh out l n del i ipc :
  wf_own out l n del →
  wf_own out (<[i:=ClientConnectionState ipc (Some n)]> l) (S n) del.
Proof.
  intros [Hc Hu Ho Hd Hn]. split.
  - intros j s [(-> & ipc' & [= _ <-])|(_ & H)]%cached_insert.
    + repeat split; [lia| |].
      * intros H%Hd. lia.
      * intros H%Ho. lia.
    + destruct (Hc j s H) as (? & ? & ?). repeat split; [lia|done..].
  - intros j k s H1%cached_insert H2%cached_insert.
    destruct H1 as [(-> & ipc' & E1)|(? & H)], H2 as [(-> & ipc'' & E2)|(? & H')];
      simplify_eq; try done.
    + destruct (Hc _ _ H') as (? & _). lia.
    + destruct (Hc _ _ H) as (? & _). lia.
    + by eapply Hu.
  - intros s H%Ho. lia.
  - intros s H%Hd. lia.
  - done.
Qed.

(** A stream just made is destroyed. *)
Lemma wf_own_delete_fresh out l n del :
  wf_own out l n del → wf_own out l (S n) (del ++ [n]).
Proof.
  intros [Hc Hu Ho Hd Hn]. split; [|done| | |done].
  - intros i s H. destruct (Hc i s H) as (? & ? & ?).
    repeat split; [lia| |done].
    rewrite elem_of_app, list_elem_of_singleton. intros [?| ->]; [done|lia].
  - intros s H%Ho. lia.
  - intros s. rewrite elem_of_app, list_elem_of_singleton.
    intros [H%Hd| ->]; lia.
Qed.

(** [Reset]: the cached stream, if any, is destroyed and forgotten. *)
Lemma wf_own_reset out l n del i ipc c :
  l !! i = Some (ClientConnectionState ipc c) →
  wf_own out l n del →
  wf_own out (<[i:=ClientConnectionState ipc None]> l) n
    (del ++ option_list c).
Proof.
  intros Hi [Hc Hu Ho Hd Hn]. split.
  - intros j s [(-> & ipc' & [=])|(Hne & H)]%cached_insert.
    destruct (Hc j s H) as (? & ? & ?). repeat split; [done| |done].
    rewrite elem_of_app. intros [?|Hs]; [done|].
    destruct c as [s'|]; [|by apply elem_of_nil in Hs].
    apply list_elem_of_singleton in Hs as ->.
    apply Hne. apply (Hu j i s'); [done|]. by exists ipc.
  - intros j k s [(-> & ipc' & [=])|(? & H)]%cached_insert
                 [(-> & ipc'' & [=])|(? & H')]%cached_insert.
    by eapply Hu.
  - done.
  - intros s. rewrite elem_of_app. intros [H%Hd|Hs]; [done|].
    destruct c as [s'|]; [|by apply elem_of_nil in Hs].
    apply list_elem_of_singleton in Hs as ->.
    apply (Hc i s'). by exists ipc.
  - done.
Qed.

(** [GetConnectedStream] of a client: the cached stream moves to the
    caller's side. *)
Lemma wf_own_claim out l n del i ipc c :
  l !! i = Some (ClientConnectionState ipc c) →
  wf_own out l n del →
  wf_own (option_list c ++ out)
    (<[i:=ClientConnectionState ipc None]> l) n del.
Proof.
  intros Hi [Hc Hu Ho Hd Hn]. split.
  - intros j s [(-> & ipc' & [=])|(Hne & H)]%cached_insert.
    destruct (Hc j s H) as (? & ? & ?). repeat split; [done..|].
    rewrite elem_of_app. intros [Hs|?]; [|done].
    destruct c as [s'|]; [|by apply elem_of_nil in Hs].
    apply list_elem_of_singleton in Hs as ->.
    apply Hne. apply (Hu j i s'); [done|]. by exists ipc.
  - intros j k s [(-> & ipc' & [=])|(? & H)]%cached_insert
                 [(-> & ipc'' & [=])|(? & H')]%cached_insert.
    by eapply Hu.
  - intros s. rewrite elem_of_app. intros [Hs|H%Ho]; [|done].
    destruct c as [s'|]; [|by apply elem_of_nil in Hs].
    apply list_elem_of_singleton in Hs as ->.
    apply (Hc i s'). by exists ipc.
  - done.
  - destruct c as [s'|]; [|done]. simpl. apply NoDup_cons. split; [|done].
    apply (Hc i s'). by exists ipc.
Qed.

(** [Accept]: a stream just made goes to the caller's side. *)
Lemma wf_own_accept out l n del :
  wf_own out l n del → wf_own (n :: out) l (S n) del.
Proof.
  intros [Hc Hu Ho Hd Hn]. split; [|done| | |].
  - intros i s H. destruct (Hc i s H) as (? & ? & ?).
    repeat split; [lia|done|]. rewrite elem_of_cons. intros [->|?]; [lia|done].
  - intros s. rewrite elem_of_cons. intros [->|H%Ho]; lia.
  - intros s H%Hd. lia.
  - apply NoDup_cons. split; [|done]. intros H%Ho. lia.
Qed.

(** A stream the factory drops is no one's. *)
Lemma wf_own_drop out' out l n del :
  wf_own (out' ++ out) l n del → wf_own out l n del.
Proof.
  intros [Hc Hu Ho Hd Hn]. split; [|done| |done|].
  - intros i s H. destruct (Hc i s H) as (? & ? & Hno). repeat split; [done..|].
    intros ?. apply Hno. rewrite elem_of_app. by right.
  - intros s H. apply Ho. rewrite elem_of_app. by right.
  - by apply NoDup_app in Hn as (_ & _ & ?).
Qed.

Lemma wf_own_push out l n del c :
  (∀ ipc s, c ≠ ClientConnectionState ipc (Some s)) →
  wf_own out l n del → wf_own out (l ++ [c]) n del.
Proof.
  intros Hcn [Hc Hu Ho Hd Hn].
  assert (Hold : ∀ i s, cached (l ++ [c]) i s → cached l i s).
  { intros i s [ipc H]. exists ipc.
    apply lookup_app_Some in H as [H|[_ H]]; [done|].
    apply list_lookup_singleton_Some in H as [_ ->]. by destruct (Hcn ipc s). }
  split; [|  |done..].
  - intros i s H%Hold. by apply (Hc i).
  - intros i j s H%Hold H'%Hold. by eapply Hu.
Qed.

Ltac wf_now :=
  unfold wf in *; simpl; rewrite ?deleted_app; simpl; rewrite ?app_nil_r;
  eauto using wf_own_cache_fresh, wf_own_delete_fresh, wf_own_accept,
    wf_own_next.

Lemma GetIpcPollHandle_wf out this callback st :
  wf out st → wf out (GetIpcPollHandle T this callback st).2.
Proof.
  intros Hwf. unfold GetIpcPollHandle, load. simpl.
  destruct (s_rgpConnectionStates st !! this) as [[ipc [s|]|ipc]|];
    simpl; try done.
  unfold ClientConnectionState_GetIpcPollHandle, Connect, SendIpcAdvertise_V1,
    report, ask, store.
  run; wf_now.
Qed.

(** A poll handle names its connection and carries no event yet; a
    client's handle holds the stream the client caches, a server's
    its listening endpoint. *)
Lemma GetIpcPollHandle_backed this callback st h :
  (GetIpcPollHandle T this callback st).1 = Some h →
  pUserData h = this ∧ revents h = NONE ∧
  ((∃ ipc s, s_rgpConnectionStates (GetIpcPollHandle T this callback st).2 !! this
               = Some (ClientConnectionState ipc (Some s))
             ∧ pIpc h = None ∧ pStream h = Some s)
   ∨ (∃ ipc, s_rgpConnectionStates (GetIpcPollHandle T this callback st).2 !! this
               = Some (ServerConnectionState ipc)
             ∧ pIpc h = Some ipc ∧ pStream h = None)).
Proof.
  unfold GetIpcPollHandle, load. simpl.
  destruct (s_rgpConnectionStates st !! this) as [[ipc [s|]|ipc]|] eqn:E;
    simpl; try done.
  - intros [= <-]. simpl. repeat split. left. by exists ipc, s.
  - unfold ClientConnectionState_GetIpcPollHandle, Connect, SendIpcAdvertise_V1,
      report, ask, store.
    run; try done.
    intros [= <-]. simpl. repeat split. left. exists ipc, (next_stream st).
    split; [|done]. apply list_lookup_insert_eq. by eapply lookup_lt_Some.
  - intros [= <-]. simpl. repeat split. right. by exists ipc.
Qed.

Lemma Reset_wf out this callback st :
  wf out st → wf out (Reset this callback st).2.
Proof.
  intros Hwf. unfold Reset, load. simpl.
  destruct (s_rgpConnectionStates st !! this) as [[ipc c|ipc]|] eqn:E;
    simpl; try done.
  pose proof (wf_own_reset _ _ _ _ _ _ _ E Hwf) as H.
  destruct c as [s|]; simpl in *; rewrite ?app_nil_r in H; wf_now.
Qed.

Lemma GetConnectedStream_wf out this callback st :
  wf out st →
  wf (option_list (GetConnectedStream T this callback st).1 ++ out)
     (GetConnectedStream T this callback st).2.
Proof.
  intros Hwf. unfold GetConnectedStream, load. simpl.
  destruct (s_rgpConnectionStates st !! this) as [[ipc c|ipc]|] eqn:E;
    simpl; try done.
  - apply (wf_own_claim _ _ _ _ _ _ _ E Hwf).
  - unfold ServerConnectionState_GetConnectedStream, Accept, ask.
    run; wf_now.
Qed.

Lemma collect_handles_wf out callback n : ∀ i st,
  wf out st → wf out (collect_handles T callback i n st).2.
Proof.
  induction n as [|n IH]; intros i st Hwf; simpl; [done|].
  pose proof (GetIpcPollHandle_wf out i callback st Hwf) as H1.
  destruct (GetIpcPollHandle T i callback st) as [h st1].
  pose proof (IH (S i) st1 H1) as H2.
  destruct (collect_handles T callback (S i) n st1) as [rest st2].
  by destruct h.
Qed.

(** The pass over the handles keeps ownership well-formed, with the
    pending stream on the caller's side; a pass ended by [ERR] drops
    the pending stream. *)
Lemma classify_wf out callback hs : ∀ pStream pollTimeoutMs st,
  wf (option_list pStream ++ out) st →
  match (classify T K callback hs pStream pollTimeoutMs st).1 with
  | PollError => wf out (classify T K callback hs pStream pollTimeoutMs st).2
  | Classify_done p _ =>
      wf (option_list p ++ out) (classify T K callback hs pStream pollTimeoutMs st).2
  end.
Proof.
  induction hs as [|h hs IH]; intros p t st Hwf; simpl; [done|].
  destruct (revents h); simpl; try by apply IH.
  - destruct p as [s|]; [by apply IH|]. simpl.
    pose proof (GetConnectedStream_wf out (pUserData h) callback st Hwf) as H1.
    destruct (GetConnectedStream T (pUserData h) callback st) as [p st1].
    by apply IH.
  - pose proof (Reset_wf _ (pUserData h) callback st Hwf) as H1.
    destruct (Reset (pUserData h) callback st) as [u st1].
    by apply IH.
  - by eapply wf_own_drop.
Qed.

(** ** One iteration of the loop *)

Lemma write_revents_length hs : ∀ rs, length (write_revents hs rs) = length hs.
Proof.
  induction hs as [|h hs IH]; intros [|r rs]; simpl; try done. by rewrite IH.
Qed.

Lemma collect_handles_count callback n : ∀ i st,
  (length (collect_handles T callback i n st).1.1 ≤ n)%nat
  ∧ ((collect_handles T callback i n st).1.2 = true ↔
     length (collect_handles T callback i n st).1.1 = n).
Proof.
  induction n as [|n IH]; intros i st; simpl; [done|].
  destruct (GetIpcPollHandle T i callback st) as [h st1].
  specialize (IH (S i) st1).
  destruct (collect_handles T callback (S i) n st1) as [[hs b] st2].
  simpl in *. destruct IH as [Hle Hiff].
  destruct h; simpl.
  - split; [lia|]. rewrite Hiff. lia.
  - split; [lia|]. split; [done|lia].
Qed.

(** What the pass over the handles returns: it ends with [PollError]
    iff some handle carries [ERR]; otherwise the timeout variable is
    the minimum if some handle carries [HANGUP] and unchanged if none
    does, and a stream already claimed stays the pending one. *)
Lemma classify_result callback hs : ∀ pStream pollTimeoutMs st,
  match (classify T K callback hs pStream pollTimeoutMs st).1 with
  | PollError => ERR ∈ map revents hs
  | Classify_done p t =>
      (ERR ∉ map revents hs)
      ∧ (HANGUP ∈ map revents hs → t = s_pollTimeoutMinMs K)
      ∧ (HANGUP ∉ map revents hs → t = pollTimeoutMs)
      ∧ (is_Some pStream → p = pStream)
  end.
Proof.
  induction hs as [|h hs IH]; intros p t st; simpl.
  { repeat split; try done. - by intros ?%elem_of_nil. - by intros ?%elem_of_nil. }
  assert (Hskip : revents h ≠ ERR → revents h ≠ HANGUP → ∀ p' st',
    match (classify T K callback hs p' t st').1 with
    | PollError => ERR ∈ revents h :: map revents hs
    | Classify_done p0 t0 =>
        (ERR ∉ revents h :: map revents hs)
        ∧ (HANGUP ∈ revents h :: map revents hs → t0 = s_pollTimeoutMinMs K)
        ∧ (HANGUP ∉ revents h :: map revents hs → t0 = t)
        ∧ (is_Some p' → p0 = p')
    end).
  { intros He Hh p' st'. specialize (IH p' t st').
    destruct (classify T K callback hs p' t st').1.
    - rewrite elem_of_cons. by right.
    - destruct IH as (H1 & H2 & H3 & H4). rewrite !elem_of_cons.
      split; [|split; [|split]]; [intuition congruence..|done]. }
  destruct (revents h) eqn:E; simpl; try (by apply Hskip).
  - destruct p as [s|]; [by apply Hskip|]. simpl.
    destruct (GetConnectedStream T (pUserData h) callback st) as [p st1].
    specialize (Hskip ltac:(done) ltac:(done) p st1).
    destruct (classify T K callback hs p t st1).1; [done|].
    destruct Hskip as (H1 & H2 & H3 & H4). repeat split; try done.
  - destruct (Reset (pUserData h) callback st) as [u st1].
    specialize (IH p (s_pollTimeoutMinMs K) st1).
    destruct (classify T K callback hs p (s_pollTimeoutMinMs K) st1).1.
    + rewrite elem_of_cons. by right.
    + destruct IH as (H1 & H2 & H3 & H4). rewrite !elem_of_cons.
      split; [|split; [|split]]; [intuition congruence| |intuition congruence|done].
      intros _. destruct (decide (HANGUP ∈ map revents hs)); auto.
  - rewrite elem_of_cons. by left.
Qed.

Lemma poll_and_classify_spec callback hs t st :
  length (s_rgpConnectionStates (poll_and_classify T K callback hs t st).2)
    = length (s_rgpConnectionStates st)
  ∧ ∃ hs' retval evs,
      trace (poll_and_classify T K callback hs t st).2
        = trace st ++ EvPoll hs' t retval :: evs
      ∧ polls evs = [] ∧ length hs' = length hs
      ∧ (poll_and_classify T K callback hs t st).1 ≠ Undefined
      ∧ ((poll_and_classify T K callback hs t st).1 = Return None
         ↔ reports ERR (hs', t, retval))
      ∧ ∀ t', (poll_and_classify T K callback hs t st).1 = Continue t' →
              (reports HANGUP (hs', t, retval) → t' = s_pollTimeoutMinMs K)
              ∧ (¬ reports HANGUP (hs', t, retval) → t' = t).
Proof.
  unfold poll_and_classify, Poll, ask, reports. simpl.
  destruct (ipc_Poll T hs t (world st)) as [[retval rs] w]. simpl.
  destruct (retval =? 0) eqn:Er; simpl.
  - apply Z.eqb_eq in Er as ->. split; [done|].
    exists (write_revents hs rs), 0, []. simpl.
    rewrite write_revents_length.
    split_and!; try done.
    + split; [done|]. by intros [? _].
    + intros t' [= <-]. split; [|done]. by intros [? _].
  - apply Z.eqb_neq in Er.
    match goal with |- context [classify T K callback ?h None t ?s] =>
      pose proof (classify_quiet callback h None t s) as (Hl & _ & _ & evs & Ht & Hp);
      pose proof (classify_result callback h None t s) as Hr;
      destruct (classify T K callback h None t s) as [c st3]
    end.
    simpl in *. split; [by destruct c as [|[s|] t']|].
    exists (write_revents hs rs), retval, evs.
    rewrite write_revents_length.
    split; [destruct c as [|[s|] t']; simpl; by rewrite Ht, <- app_assoc|].
    split; [done|]. split; [done|].
    destruct c as [|[s|] t']; simpl.
    + split_and!; try done.
    + destruct Hr as (H1 & _). split_and!; try done.
      split; [done|]. by intros [_ ?].
    + destruct Hr as (H1 & H2 & H3 & _). split_and!; try done.
      * split; [done|]. by intros [_ ?].
      * intros t0 [= <-]. split; [intros [_ ?]; auto|].
        intros Hn. apply H3. intros ?. by apply Hn.
Qed.

(** Each iteration calls [Poll] once, unless the timeout computation
    is undefined.  The handles passed are those the connections
    produced; the timeout is infinite when all of them produced one,
    and [GetNextTimeout] of the timeout variable otherwise. *)
Lemma iteration_polls callback pollTimeoutMs st :
  length (s_rgpConnectionStates (iteration T K callback pollTimeoutMs st).2)
    = length (s_rgpConnectionStates st)
  ∧ ∃ evs, trace (iteration T K callback pollTimeoutMs st).2 = trace st ++ evs
    ∧ match polls evs with
      | [] => (iteration T K callback pollTimeoutMs st).1 = Undefined
              ∧ GetNextTimeout K pollTimeoutMs = None
      | [p] =>
          (iteration T K callback pollTimeoutMs st).1 ≠ Undefined
          ∧ (length p.1.1 = length (s_rgpConnectionStates st)
               ∧ p.1.2 = s_pollTimeoutInfinite K
             ∨ (length p.1.1 < length (s_rgpConnectionStates st))%nat
               ∧ GetNextTimeout K pollTimeoutMs = Some p.1.2)
          ∧ ((iteration T K callback pollTimeoutMs st).1 = Return None
             ↔ reports ERR p)
          ∧ ∀ t', (iteration T K callback pollTimeoutMs st).1 = Continue t' →
                  (reports HANGUP p → t' = s_pollTimeoutMinMs K)
                  ∧ (¬ reports HANGUP p → t' = p.1.2)
      | _ => False
      end.
Proof.
  unfold iteration. simpl.
  pose proof (collect_handles_quiet callback (length (s_rgpConnectionStates st)) 0 st)
    as (Hl & _ & _ & evs1 & Ht1 & Hp1).
  pose proof (collect_handles_count callback (length (s_rgpConnectionStates st)) 0 st)
    as (Hle & Hiff).
  destruct (collect_handles T callback 0 _ st) as [[hs b] st1]. simpl in *.
  assert (Hto : match next_poll_timeout K b pollTimeoutMs with
                | Some t => length hs = length (s_rgpConnectionStates st)
                              ∧ t = s_pollTimeoutInfinite K
                            ∨ (length hs < length (s_rgpConnectionStates st))%nat
                              ∧ GetNextTimeout K pollTimeoutMs = Some t
                | None => GetNextTimeout K pollTimeoutMs = None
                end).
  { unfold next_poll_timeout. destruct b.
    - left. split; [by apply Hiff|done].
    - assert (length hs ≠ length (s_rgpConnectionStates st))
        by (intros ?%Hiff; done).
      destruct (GetNextTimeout K pollTimeoutMs); [right; split; [lia|done]|done]. }
  destruct (next_poll_timeout K b pollTimeoutMs) as [t|]; simpl.
  - pose proof (poll_and_classify_spec callback hs t st1)
      as (Hl2 & hs' & retval & evs2 & Ht2 & Hp2 & Hlen & Hu & He & Hc).
    split; [congruence|].
    exists (evs1 ++ EvPoll hs' t retval :: evs2).
    split; [by rewrite Ht2, Ht1, <- app_assoc|].
    rewrite polls_app, Hp1. simpl. rewrite Hp2. simpl.
    rewrite Hlen. done.
  - split; [done|]. exists evs1. split; [done|]. by rewrite Hp1.
Qed.

Lemma poll_and_classify_wf out callback hs t st :
  wf out st →
  wf (match (poll_and_classify T K callback hs t st).1 with
      | Return p => option_list p
      | _ => []
      end ++ out) (poll_and_classify T K callback hs t st).2.
Proof.
  intros Hwf. unfold poll_and_classify, Poll, ask. simpl.
  destruct (ipc_Poll T hs t (world st)) as [[retval rs] w]. simpl.
  destruct (retval =? 0); simpl; [wf_now|].
  match goal with |- context [classify T K callback ?h None t ?s] =>
    pose proof (classify_wf out callback h None t s) as H;
    destruct (classify T K callback h None t s) as [c st3]
  end.
  simpl in H. destruct c as [|[s|] t']; simpl in *; apply H; wf_now.
Qed.

Lemma iteration_wf out callback pollTimeoutMs st :
  wf out st →
  wf (match (iteration T K callback pollTimeoutMs st).1 with
      | Return p => option_list p
      | _ => []
      end ++ out) (iteration T K callback pollTimeoutMs st).2.
Proof.
  intros Hwf. unfold iteration. simpl.
  pose proof (collect_handles_wf out callback
                (length (s_rgpConnectionStates st)) 0 st Hwf) as H1.
  destruct (collect_handles T callback 0 _ st) as [[hs b] st1]. simpl in *.
  destruct (next_poll_timeout K b pollTimeoutMs) as [t|]; simpl; [|done].
  by apply poll_and_classify_wf.
Qed.

(** ** The whole loop *)

Lemma poll_loop_polls callback fuel : ∀ t st,
  ∃ evs, trace (poll_loop T K fuel callback t st).2 = trace st ++ evs
    ∧ ((poll_loop T K fuel callback t st).1 = Returned None
       ↔ Exists (reports ERR) (polls evs))
    ∧ ((poll_loop T K fuel callback t st).1 = Returned None →
       ∃ p, last (polls evs) = Some p ∧ reports ERR p).
Proof.
  induction fuel as [|fuel IH]; intros t st; simpl.
  { exists []. rewrite app_nil_r. split; [done|]. split; [|done].
    split; [done|]. by intros ?%Exists_nil. }
  pose proof (iteration_polls callback t st) as (_ & evs1 & Ht1 & H1).
  destruct (iteration T K callback t st) as [step st1]. simpl in *.
  destruct (polls evs1) as [|p [|]] eqn:Hp1; [| |done].
  - destruct H1 as [-> _]. simpl. exists evs1. rewrite Hp1.
    split; [done|]. split; [|done]. split; [done|]. by intros ?%Exists_nil.
  - destruct H1 as (Hu & _ & He & _).
    destruct step as [t'|r|]; [| |done]; simpl.
    + destruct (IH t' st1) as (evs2 & Ht2 & He2 & Hl2).
      exists (evs1 ++ evs2). rewrite Ht2, Ht1, <- app_assoc.
      split; [done|]. rewrite polls_app, Hp1. simpl.
      assert (Hno : ¬ reports ERR p) by (intros ?%He; done).
      split.
      * rewrite He2, Exists_cons. intuition.
      * intros Hr. destruct (Hl2 Hr) as (p' & Hlast & Hp').
        exists p'. split; [|done].
        destruct (polls evs2) as [|q l]; [done|]. by rewrite last_cons, Hlast.
    + exists evs1. rewrite Hp1. split; [done|]. split.
      * rewrite Exists_cons, Exists_nil.
        split; [intros [= ->]; left; by apply He|].
        intros [Hr|[]]. apply He in Hr. congruence.
      * intros [= ->]. exists p. split; [done|]. by apply He.
Qed.

Lemma poll_loop_wf out callback fuel : ∀ t st,
  wf out st →
  wf (match (poll_loop T K fuel callback t st).1 with
      | Returned p => option_list p
      | _ => []
      end ++ out) (poll_loop T K fuel callback t st).2.
Proof.
  induction fuel as [|fuel IH]; intros t st Hwf; simpl; [done|].
  pose proof (iteration_wf out callback t st Hwf) as H1.
  destruct (iteration T K callback t st) as [step st1]. simpl in *.
  destruct step as [t'|r|]; simpl; [by apply IH|done..].
Qed.

(** The part of the poll-error contract that the code keeps.
    [GetNextAvailableStream] returns null exactly when one of its
    [Poll] calls came back non-zero with [ERR] on some handle, whatever
    the other handles carry; that call is the last one the run makes.
    On every way out what the caches hold stays well-formed: each
    cached stream exists, is not destroyed, is cached by one connection
    and is not a caller's.  This says nothing of a stream that was
    taken out of its cache and is pending when [ERR] is met: see the
    last section. *)
Theorem null_result_iff_poll_error fuel callback out st :
  wf out st →
  ((GetNextAvailableStream T K fuel callback st).1 = Returned None
   ↔ Exists (reports ERR)
       (polls (new_events st (GetNextAvailableStream T K fuel callback st).2)))
  ∧ ((GetNextAvailableStream T K fuel callback st).1 = Returned None →
     ∃ p, last (polls (new_events st (GetNextAvailableStream T K fuel callback st).2))
            = Some p ∧ reports ERR p)
  ∧ wf (match (GetNextAvailableStream T K fuel callback st).1 with
        | Returned p => option_list p
        | _ => []
        end ++ out) (GetNextAvailableStream T K fuel callback st).2.
Proof.
  intros Hwf. unfold GetNextAvailableStream.
  destruct (poll_loop_polls callback fuel (s_pollTimeoutInfinite K) st)
    as (evs & Ht & He & Hl).
  rewrite (new_events_app _ _ _ Ht).
  split; [done|]. split; [done|]. by apply poll_loop_wf.
Qed.

(** ** The backoff after a hangup *)

(** C2, as the code has it.  A round that classifies a [HANGUP] and
    goes on leaves the timeout variable at the minimum.  The next
    round passes to [Poll] the infinite timeout when every connection
    produced a handle, and otherwise [GetNextTimeout] of the minimum:
    one step of growth above it. *)
Theorem hangup_restarts_backoff callback t t1 st p :
  (iteration T K callback t st).1 = Continue t1 →
  polls (new_events st (iteration T K callback t st).2) = [p] →
  reports HANGUP p →
  t1 = s_pollTimeoutMinMs K
  ∧ match polls (new_events (iteration T K callback t st).2
                   (iteration T K callback t1 (iteration T K callback t st).2).2) with
    | [] => (iteration T K callback t1 (iteration T K callback t st).2).1 = Undefined
            ∧ GetNextTimeout K (s_pollTimeoutMinMs K) = None
    | [q] => length q.1.1 = length (s_rgpConnectionStates st)
               ∧ q.1.2 = s_pollTimeoutInfinite K
             ∨ (length q.1.1 < length (s_rgpConnectionStates st))%nat
               ∧ GetNextTimeout K (s_pollTimeoutMinMs K) = Some q.1.2
    | _ => False
    end.
Proof.
  intros Hc Hp Hh.
  pose proof (iteration_polls callback t st) as (Hl & evs & Ht & H).
  rewrite (new_events_app _ _ _ Ht) in Hp. rewrite Hp in H.
  destruct H as (_ & _ & _ & Hcont).
  destruct (Hcont t1 Hc) as [Hmin _]. specialize (Hmin Hh). subst t1.
  split; [done|].
  pose proof (iteration_polls callback (s_pollTimeoutMinMs K)
                (iteration T K callback t st).2) as (_ & evs2 & Ht2 & H2).
  rewrite (new_events_app _ _ _ Ht2).
  destruct (polls evs2) as [|q [|]]; [| |done].
  - done.
  - destruct H2 as (_ & H2 & _). by rewrite Hl in H2.
Qed.

(** ** No connection registered *)

Lemma iteration_no_connections callback t st :
  s_rgpConnectionStates st = [] →
  ∃ retval,
    (iteration T K callback t st).1 = Continue (s_pollTimeoutInfinite K)
    ∧ s_rgpConnectionStates (iteration T K callback t st).2 = []
    ∧ trace (iteration T K callback t st).2
        = trace st ++ [EvPoll [] (s_pollTimeoutInfinite K) retval].
Proof.
  intros Hnil. unfold iteration, poll_and_classify, Poll, ask. simpl.
  rewrite Hnil. simpl.
  destruct (ipc_Poll T [] (s_pollTimeoutInfinite K) (world st)) as [[retval rs] w].
  simpl. exists retval. by destruct (retval =? 0).
Qed.

(** C10.  With no connection registered, every iteration calls
    [Poll] with no handle and the infinite timeout, whatever [Poll]
    returns, and goes round again: for every bound on the number of
    iterations the run is still in the loop, having made that many
    such calls and nothing else.  [HasActiveConnections] is false. *)
Theorem no_connections_never_returns fuel callback st :
  s_rgpConnectionStates st = [] →
  (∃ t, (GetNextAvailableStream T K fuel callback st).1 = OutOfFuel t)
  ∧ length (new_events st (GetNextAvailableStream T K fuel callback st).2) = fuel
  ∧ Forall (fun e => ∃ retval, e = EvPoll [] (s_pollTimeoutInfinite K) retval)
      (new_events st (GetNextAvailableStream T K fuel callback st).2)
  ∧ (HasActiveConnections st).1 = false.
Proof.
  intros Hnil. unfold GetNextAvailableStream.
  assert (Hloop : ∀ t st, s_rgpConnectionStates st = [] →
    ∃ evs, trace (poll_loop T K fuel callback t st).2 = trace st ++ evs
      ∧ (∃ t', (poll_loop T K fuel callback t st).1 = OutOfFuel t')
      ∧ length evs = fuel
      ∧ Forall (fun e => ∃ retval, e = EvPoll [] (s_pollTimeoutInfinite K) retval) evs).
  { clear st Hnil. induction fuel as [|fuel IH]; intros t st Hnil; simpl.
    - exists []. rewrite app_nil_r. eauto.
    - destruct (iteration_no_connections callback t st Hnil)
        as (retval & Hs & Hr & Ht).
      destruct (iteration T K callback t st) as [step st1]. simpl in *. subst step.
      destruct (IH (s_pollTimeoutInfinite K) st1 Hr) as (evs & Ht' & Ho & Hlen & Hall).
      exists (EvPoll [] (s_pollTimeoutInfinite K) retval :: evs).
      rewrite Ht', Ht, <- app_assoc. simpl.
      split_and!; [done|done|by rewrite Hlen|].
      apply Forall_cons. split; [by eexists|done]. }
  destruct (Hloop (s_pollTimeoutInfinite K) st Hnil) as (evs & Ht & Ho & Hlen & Hall).
  rewrite (new_events_app _ _ _ Ht).
  split_and!; try done.
  unfold HasActiveConnections. simpl. rewrite Hnil. simpl. apply andb_false_r.
Qed.

(** ** Client connections: reconnect and hangup *)

Lemma new_events_record st w l b n m evs :
  new_events st {| world := w; s_rgpConnectionStates := l; s_isShutdown := b;
                   next_stream := n; next_ipc := m; trace := trace st ++ evs |} = evs.
Proof. by apply new_events_app. Qed.

(** C7.  A client asked for its poll handle with an empty cache
    connects and then sends the advertise message.  If both succeed
    the new stream is cached and the handle holds it.  If [Connect]
    fails, or the handshake fails, the failure goes to the callback
    (when there is one) with code -1, no handle is returned, a stream
    that was opened is destroyed, and the cache stays empty.  Whatever
    the cache held, a handle that is returned holds the stream the
    client caches, and that stream exists and is not destroyed. *)
Theorem client_poll_handle_reconnects this callback ipc c out st :
  s_rgpConnectionStates st !! this = Some (ClientConnectionState ipc c) →
  wf out st →
  (c = None →
   match (GetIpcPollHandle T this callback st).1 with
   | Some h =>
       ∃ s, h = {| pIpc := None; pStream := Some s;
                   revents := NONE; pUserData := this |}
         ∧ new_events st (GetIpcPollHandle T this callback st).2
             = [EvConnect ipc (Some s); EvAdvertise s true]
         ∧ s_rgpConnectionStates (GetIpcPollHandle T this callback st).2
             = <[this:=ClientConnectionState ipc (Some s)]> (s_rgpConnectionStates st)
   | None =>
       s_rgpConnectionStates (GetIpcPollHandle T this callback st).2
         = s_rgpConnectionStates st
       ∧ (new_events st (GetIpcPollHandle T this callback st).2
            = EvConnect ipc None
                :: reported callback "Failed to connect to client connection"
          ∨ ∃ s, new_events st (GetIpcPollHandle T this callback st).2
                   = [EvConnect ipc (Some s); EvAdvertise s false]
                       ++ reported callback "Failed to send advertise message"
                       ++ [EvDelete s])
   end)
  ∧ wf out (GetIpcPollHandle T this callback st).2
  ∧ ∀ h, (GetIpcPollHandle T this callback st).1 = Some h →
      ∃ s, pStream h = Some s
        ∧ cached (s_rgpConnectionStates (GetIpcPollHandle T this callback st).2) this s
        ∧ (s < next_stream (GetIpcPollHandle T this callback st).2)%nat
        ∧ s ∉ deleted (trace (GetIpcPollHandle T this callback st).2).
Proof.
  intros Hthis Hwf.
  pose proof (GetIpcPollHandle_wf out this callback st Hwf) as Hwf'.
  split; [|split; [done|]].
  - intros ->. revert Hwf'. unfold GetIpcPollHandle, load. simpl.
    rewrite Hthis. simpl.
    unfold ClientConnectionState_GetIpcPollHandle, Connect, SendIpcAdvertise_V1,
      report, ask, store, reported.
    run; intros _; rewrite <- ?app_assoc; rewrite ?new_events_record; simpl.
    + by eexists.
    + split; [done|]. right. by eexists.
    + split; [done|]. right. by eexists.
    + split; [done|]. by left.
    + split; [done|]. by left.
  - intros h Hh.
    destruct (GetIpcPollHandle_backed this callback st h Hh)
      as (_ & _ & [(ipc' & s & Hs & _ & Hps)|(ipc' & Hs & _)]).
    + exists s. split; [done|].
      assert (Hc : cached (s_rgpConnectionStates
                             (GetIpcPollHandle T this callback st).2) this s)
        by (by exists ipc').
      split; [done|]. destruct (wf_cached _ _ _ _ Hwf' _ _ Hc) as (? & ? & _). done.
    + exfalso. revert Hs. unfold GetIpcPollHandle, load. simpl.
      rewrite Hthis. simpl. destruct c as [s|]; simpl; [by rewrite Hthis|].
      unfold ClientConnectionState_GetIpcPollHandle, Connect, SendIpcAdvertise_V1,
        report, ask, store.
      run; rewrite ?Hthis; try done.
      rewrite list_lookup_insert_eq; [done|]. by eapply lookup_lt_Some.
Qed.








(** ** One stream per call *)

Lemma classify_claimed callback s hs : ∀ t st,
  classify T K callback hs (Some s) t st =
  classify T K callback (filter (fun h => revents h ≠ SIGNALED) hs) (Some s) t st.
Proof.
  induction hs as [|h hs IH]; intros t st; [done|].
  destruct (decide (revents h = SIGNALED)) as [E|E].
  - rewrite filter_cons_False by (by intros ?). simpl. rewrite E. apply IH.
  - rewrite filter_cons_True by done. simpl.
    destruct (revents h); try done; try apply IH.
    unfold bind. destruct (Reset (pUserData h) callback st). apply IH.
Qed.

(** C4, as the code has it.  On a [SIGNALED] handle with no stream
    claimed yet, [GetConnectedStream] of the owning connection is
    called and what it returns is the pending result.  Once a stream
    is pending, further [SIGNALED] handles are passed over, and the
    pass ends either with that stream still pending or, if a later
    handle carries [ERR], with the error.  A pass that ends with a
    stream pending ends the iteration and the call with that stream.
    Two successive calls that return streams return different ones,
    neither of them a stream returned before. *)
Theorem one_stream_per_call callback out st :
  (∀ h hs t, revents h = SIGNALED →
     classify T K callback (h :: hs) None t st =
     classify T K callback hs (GetConnectedStream T (pUserData h) callback st).1 t
       (GetConnectedStream T (pUserData h) callback st).2)
  ∧ (∀ hs s t,
       classify T K callback hs (Some s) t st =
       classify T K callback (filter (fun h => revents h ≠ SIGNALED) hs) (Some s) t st)
  ∧ (∀ hs s t,
       match (classify T K callback hs (Some s) t st).1 with
       | PollError => ERR ∈ map revents hs
       | Classify_done p _ => p = Some s ∧ (ERR ∉ map revents hs)
       end)
  ∧ (∀ hs t s,
       (poll_and_classify T K callback hs t st).1 = Return (Some s) ↔
       (Poll T hs t st).1.1 ≠ 0
       ∧ ∃ t', (classify T K callback (Poll T hs t st).1.2 None t (Poll T hs t st).2).1
                 = Classify_done (Some s) t')
  ∧ (∀ fuel t p,
       (iteration T K callback t st).1 = Return p →
       poll_loop T K (S fuel) callback t st
         = (Returned p, (iteration T K callback t st).2))
  ∧ (∀ fuel1 fuel2 callback2 s1 s2,
       wf out st →
       (GetNextAvailableStream T K fuel1 callback st).1 = Returned (Some s1) →
       (GetNextAvailableStream T K fuel2 callback2
          (GetNextAvailableStream T K fuel1 callback st).2).1 = Returned (Some s2) →
       s1 ≠ s2 ∧ (s1 ∉ out) ∧ (s2 ∉ out)).
Proof.
  split_and!.
  - intros h hs t E. simpl. rewrite E. unfold bind.
    by destruct (GetConnectedStream T (pUserData h) callback st).
  - intros hs s t. apply classify_claimed.
  - intros hs s t. pose proof (classify_result callback hs (Some s) t st) as H.
    destruct (classify T K callback hs (Some s) t st).1; [done|].
    destruct H as (? & _ & _ & Hp). split; [by apply Hp|done].
  - intros hs t s. unfold poll_and_classify. simpl.
    destruct (Poll T hs t st) as [[retval hs'] st1]. simpl.
    destruct (retval =? 0) eqn:Er; simpl.
    + apply Z.eqb_eq in Er. split; [done|]. by intros [? _].
    + apply Z.eqb_neq in Er.
      destruct (classify T K callback hs' None t st1) as [[|[s'|] t'] st2]; simpl.
      * split; [done|]. by intros [_ [? [=]]].
      * split; [intros [= ->]; eauto|]. by intros [_ [? [= ->]]].
      * split; [done|]. by intros [_ [? [=]]].
  - intros fuel t p Hp. simpl.
    destruct (iteration T K callback t st) as [step st1]. simpl in *. by subst.
  - intros fuel1 fuel2 callback2 s1 s2 Hwf H1 H2.
    unfold GetNextAvailableStream in *.
    pose proof (poll_loop_wf out callback fuel1 (s_pollTimeoutInfinite K) st Hwf) as Hwf1.
    rewrite H1 in Hwf1. simpl in Hwf1.
    pose proof (poll_loop_wf _ callback2 fuel2 (s_pollTimeoutInfinite K) _ Hwf1) as Hwf2.
    rewrite H2 in Hwf2. simpl in Hwf2.
    pose proof (wf_distinct _ _ _ _ Hwf2) as Hnd.
    apply NoDup_cons in Hnd as [Hn2 Hnd]. apply NoDup_cons in Hnd as [Hn1 _].
    rewrite elem_of_cons in Hn2. split_and!; [|done|]; intros ?; apply Hn2; auto.
Qed.

(** ** Registration keeps ownership well-formed *)

Lemma wf_initial (w : W) : wf [] (initial w).
Proof.
  split; simpl.
  - by intros i s [ipc ?].
  - by intros i j s [ipc ?].
  - by intros s ?%elem_of_nil.
  - by intros s ?%elem_of_nil.
  - apply NoDup_nil_2.
Qed.

Lemma CreateClient_wf out pIpcName callback st :
  wf out st → wf out (CreateClient T pIpcName callback st).2.
Proof.
  intros Hwf. unfold CreateClient, Create, Push, ask.
  run; wf_now. by apply wf_own_push.
Qed.

Lemma CreateServer_wf out pIpcName callback st :
  wf out st → wf out (CreateServer T pIpcName callback st).2.
Proof.
  intros Hwf. unfold CreateServer, Create, Listen, Push, ask.
  run; wf_now. by apply wf_own_push.
Qed.

End FactoryFacts.

(** ** The backoff curve of the runtime *)

(** C1.  With the runtime's constants the backoff from the infinite
    timeout runs 10, 12, 15, ..., 366, 457, 571, 500, 500: the step from
    457 returns 571, above the 500 ms maximum, where the minimum of the
    maximum and the product is 500.  [GetNextTimeout] compares the
    timeout it is given with the maximum, not the product it returns. *)
Theorem GetNextTimeout_exceeds_maximum :
  backoff runtime_timeouts 22 (s_pollTimeoutInfinite runtime_timeouts)
    = map Some [10; 12; 15; 18; 22; 27; 33; 41; 51; 63; 78; 97; 121; 151;
                188; 235; 293; 366; 457; 571; 500; 500]
  ∧ GetNextTimeout runtime_timeouts 457 = Some 571
  ∧ s_pollTimeoutMaxMs runtime_timeouts < 571
  ∧ Z.min (s_pollTimeoutMaxMs runtime_timeouts) (457 * 5 / 4) = 500.
Proof. by vm_compute. Qed.

(** The overshoot does not hang on the value of the maximum: for every
    maximum from 12 to 4011 ms the step from one below it lands above
    it. *)
Lemma GetNextTimeout_overshoots_every_maximum :
  forallb (fun mx => match GetNextTimeout (with_maximum mx) (mx - 1) with
                     | Some v => mx <? v
                     | None => false
                     end)
          (map Z.of_nat (seq 12 4000)) = true.
Proof. by vm_compute. Qed.

(** Nor does the step above the minimum hang on its value: for every
    minimum from 4 to 499 ms, [GetNextTimeout] of the minimum is
    larger. *)
Lemma GetNextTimeout_leaves_every_minimum :
  forallb (fun mn => match GetNextTimeout (with_minimum mn) mn with
                     | Some v => mn <? v
                     | None => false
                     end)
          (map Z.of_nat (seq 4 496)) = true.
Proof. by vm_compute. Qed.

(** What does hold of [GetNextTimeout]: the infinite timeout gives the
    minimum, and a timeout at or above the maximum gives the maximum. *)
Lemma GetNextTimeout_infinite K :
  GetNextTimeout K (s_pollTimeoutInfinite K) = Some (s_pollTimeoutMinMs K).
Proof. unfold GetNextTimeout. by rewrite Z.eqb_refl. Qed.

Lemma GetNextTimeout_capped K t :
  t ≠ s_pollTimeoutInfinite K → s_pollTimeoutMaxMs K ≤ t →
  GetNextTimeout K t = Some (s_pollTimeoutMaxMs K).
Proof.
  intros Hne Hle. unfold GetNextTimeout.
  destruct (Z.eqb_spec t (s_pollTimeoutInfinite K)); [done|].
  destruct (Z.geb_spec t (s_pollTimeoutMaxMs K)); [done|lia].
Qed.

(** ** The scenarios *)

Section Scenarios.

Import Scripted.

Lemma two_clients_wf w : wf [] (two_clients w).
Proof.
  apply (CreateClient_wf transport [] "pipeB" true
           (CreateClient transport "pipeA" true (start (Yes :: Yes :: w))).2).
  apply CreateClient_wf, wf_initial.
Qed.

Lemma server_and_client_wf w : wf [] (server_and_client w).
Proof.
  apply (CreateClient_wf transport [] "pipeB" true
           (CreateServer transport "pipeA" true (start (Yes :: Yes :: Yes :: w))).2).
  apply CreateServer_wf, wf_initial.
Qed.

Lemma idle_client_wf w : wf [] (idle_client w).
Proof. apply CreateClient_wf, wf_initial. Qed.

(** C2 fails as stated: after the hangup of the first client the next
    [Poll] is given 12 ms, [GetNextTimeout] of the 10 ms minimum. *)
Lemma hangup_then_minimum_timeout_fails : ¬ hangup_then_minimum_timeout.
Proof.
  intros H.
  specialize (H World transport true (-1) 10 (two_clients hangup_script)
    ([{| pIpc := None; pStream := Some 0%nat; revents := HANGUP; pUserData := 0 |}],
     10, 1)
    ([], 12, 0)).
  assert (Hq : 12 = 10); [|done].
  apply H.
  - by vm_compute.
  - by vm_compute.
  - split; [done|]. simpl. apply list_elem_of_singleton. done.
  - by vm_compute.
  - vm_compute. lia.
Qed.

Lemma hangup_restarts_backoff_witness :
  (iteration transport runtime_timeouts true (-1) (two_clients hangup_script)).1
    = Continue 10
  ∧ 10 = s_pollTimeoutMinMs runtime_timeouts
  ∧ GetNextTimeout runtime_timeouts (s_pollTimeoutMinMs runtime_timeouts) = Some 12.
Proof.
  assert (H1 : (iteration transport runtime_timeouts true (-1)
                  (two_clients hangup_script)).1 = Continue 10)
    by (vm_compute; reflexivity).
  assert (H2 : polls (new_events (two_clients hangup_script)
                 (iteration transport runtime_timeouts true (-1)
                    (two_clients hangup_script)).2)
               = [([{| pIpc := None; pStream := Some 0%nat; revents := HANGUP;
                       pUserData := 0 |}], 10, 1)])
    by (vm_compute; reflexivity).
  assert (H3 : reports HANGUP
                 ([{| pIpc := None; pStream := Some 0%nat; revents := HANGUP;
                      pUserData := 0 |}], 10, 1)).
  { split; [discriminate|]. simpl. apply list_elem_of_singleton. reflexivity. }
  split; [exact H1|]. split; [|vm_compute; reflexivity].
  exact (proj1 (hangup_restarts_backoff transport runtime_timeouts true (-1) 10
                  (two_clients hangup_script) _ H1 H2 H3)).
Defined.

Lemma null_result_iff_poll_error_witness :
  wf [] (two_clients signaled_and_error_script)
  ∧ Exists (reports ERR)
      (polls (new_events (two_clients signaled_and_error_script)
         (GetNextAvailableStream transport runtime_timeouts 3 true
            (two_clients signaled_and_error_script)).2)).
Proof.
  assert (Hr : (GetNextAvailableStream transport runtime_timeouts 3 true
                  (two_clients signaled_and_error_script)).1 = Returned None)
    by (vm_compute; reflexivity).
  split; [apply two_clients_wf|].
  exact (proj1 (proj1 (null_result_iff_poll_error transport runtime_timeouts 3 true []
                         (two_clients signaled_and_error_script)
                         (two_clients_wf _))) Hr).
Defined.

(** C4 fails as stated: the first client is ready and hands over
    stream 0, the second handle carries [ERR], and the call returns
    null; stream 0 is neither returned nor cached any more. *)
Lemma signaled_stream_is_result_fails : ¬ signaled_stream_is_result.
Proof.
  intros H.
  specialize (H World transport 3%nat true (two_clients signaled_and_error_script)
    {| pIpc := None; pStream := Some 0%nat; revents := SIGNALED; pUserData := 0 |}
    [{| pIpc := None; pStream := Some 1%nat; revents := ERR; pUserData := 1 |}]
    (-1) 2 0%nat).
  assert (Hr : Returned None = Returned (Some 0%nat)); [|done].
  apply H; by vm_compute.
Qed.

Lemma one_stream_per_call_witness :
  wf [] (server_and_client both_ready_script)
  ∧ (GetNextAvailableStream transport runtime_timeouts 3 true
       (server_and_client both_ready_script)).1 = Returned (Some 1%nat)
  ∧ (GetNextAvailableStream transport runtime_timeouts 3 true
       (GetNextAvailableStream transport runtime_timeouts 3 true
          (server_and_client both_ready_script)).2).1 = Returned (Some 0%nat)
  ∧ 1%nat ≠ 0%nat.
Proof.
  assert (H1 : (GetNextAvailableStream transport runtime_timeouts 3 true
                  (server_and_client both_ready_script)).1 = Returned (Some 1%nat))
    by (vm_compute; reflexivity).
  assert (H2 : (GetNextAvailableStream transport runtime_timeouts 3 true
                  (GetNextAvailableStream transport runtime_timeouts 3 true
                     (server_and_client both_ready_script)).2).1
               = Returned (Some 0%nat))
    by (vm_compute; reflexivity).
  split; [apply server_and_client_wf|].
  split; [exact H1|]. split; [exact H2|].
  destruct (one_stream_per_call transport runtime_timeouts true []
              (server_and_client both_ready_script)) as (_ & _ & _ & _ & _ & H).
  exact (proj1 (H 3%nat 3%nat true 1%nat 0%nat (server_and_client_wf _) H1 H2)).
Defined.


Lemma client_poll_handle_reconnects_witness :
  s_rgpConnectionStates (idle_client [Yes; No]) !! 0%nat
    = Some (ClientConnectionState 0%nat None)
  ∧ wf [] (idle_client [Yes; No])
  ∧ wf [] (GetIpcPollHandle transport 0 true (idle_client [Yes; No])).2.
Proof.
  assert (H0 : s_rgpConnectionStates (idle_client [Yes; No]) !! 0%nat
               = Some (ClientConnectionState 0%nat None))
    by (vm_compute; reflexivity).
  split; [exact H0|]. split; [apply idle_client_wf|].
  exact (proj1 (proj2 (client_poll_handle_reconnects transport 0 true 0%nat None []
                         (idle_client [Yes; No]) H0 (idle_client_wf _)))).
Defined.

Lemma classify_ignores_other_events_witness :
  actionable NONE = false
  ∧ classify transport runtime_timeouts true
      [{| pIpc := None; pStream := Some 0%nat; revents := NONE; pUserData := 0 |};
       {| pIpc := None; pStream := Some 0%nat; revents := HANGUP; pUserData := 0 |}]
      None 27 (connected_client []) =
    classify transport runtime_timeouts true
      [{| pIpc := None; pStream := Some 0%nat; revents := HANGUP; pUserData := 0 |}]
      None 27 (connected_client []).
Proof.
  split; [reflexivity|].
  exact (classify_ignores_other_events transport runtime_timeouts true
           {| pIpc := None; pStream := Some 0%nat; revents := NONE; pUserData := 0 |}
           _ _ _ _ eq_refl).
Defined.

Lemma no_connections_never_returns_witness :
  s_rgpConnectionStates (start [Polled 1 [ERR]; Polled 0 []]) = []
  ∧ ∃ t, (GetNextAvailableStream transport runtime_timeouts 5 true
            (start [Polled 1 [ERR]; Polled 0 []])).1 = OutOfFuel t.
Proof.
  split; [reflexivity|].
  exact (proj1 (no_connections_never_returns transport runtime_timeouts 5 true
                  (start [Polled 1 [ERR]; Polled 0 []]) eq_refl)).
Defined.

End Scenarios.


(** * Further properties of the factory *)

(** ** Registration and teardown *)

Section Registration.

Context {W : Type}.
Variable T : Transport W.

Implicit Types (st : State W) (callback : bool).

Ltac answer :=
  repeat (simpl;
    match goal with
    | |- context [ipc_Create T ?n ?m ?w] =>
        destruct (ipc_Create T n m w) as [[] ?] eqn:?
    | |- context [ipc_Listen T ?a ?w] =>
        destruct (ipc_Listen T a w) as [[] ?] eqn:?
    end); simpl.

(** X1.  [CreateServer] returns true exactly when the endpoint was
    created and listens; the new server is then the last entry of the
    registry and every earlier entry keeps its position.  When the
    endpoint cannot be created nothing else happens; when it does not
    listen it is deleted.  In both cases the registry is as before.
    The shutdown flag and the streams are never touched. *)
Theorem CreateServer_outcomes pIpcName callback st :
  s_isShutdown (CreateServer T pIpcName callback st).2 = s_isShutdown st
  ∧ next_stream (CreateServer T pIpcName callback st).2 = next_stream st
  ∧ if (CreateServer T pIpcName callback st).1
    then s_rgpConnectionStates (CreateServer T pIpcName callback st).2
           = s_rgpConnectionStates st ++ [ServerConnectionState (next_ipc st)]
         ∧ new_events st (CreateServer T pIpcName callback st).2
           = [EvCreate pIpcName SERVER (Some (next_ipc st));
              EvListen (next_ipc st) true]
    else s_rgpConnectionStates (CreateServer T pIpcName callback st).2
           = s_rgpConnectionStates st
         ∧ (new_events st (CreateServer T pIpcName callback st).2
              = [EvCreate pIpcName SERVER None]
            ∨ new_events st (CreateServer T pIpcName callback st).2
              = [EvCreate pIpcName SERVER (Some (next_ipc st));
                 EvListen (next_ipc st) false;
                 EvDeleteIpc (next_ipc st)]).
Proof.
  unfold CreateServer, Create, Listen, Push, ask.
  answer; rewrite <- ?app_assoc, ?new_events_record; simpl; auto.
Qed.

(** X2.  [CreateClient] only creates the endpoint: it makes no
    [Connect] and sends no advertise message.  On success the new
    client is the last entry of the registry, with an empty cache; on
    failure the registry is as before. *)
Theorem CreateClient_is_lazy pIpcName callback st :
  s_isShutdown (CreateClient T pIpcName callback st).2 = s_isShutdown st
  ∧ next_stream (CreateClient T pIpcName callback st).2 = next_stream st
  ∧ if (CreateClient T pIpcName callback st).1
    then s_rgpConnectionStates (CreateClient T pIpcName callback st).2
           = s_rgpConnectionStates st ++ [ClientConnectionState (next_ipc st) None]
         ∧ new_events st (CreateClient T pIpcName callback st).2
           = [EvCreate pIpcName CLIENT (Some (next_ipc st))]
    else s_rgpConnectionStates (CreateClient T pIpcName callback st).2
           = s_rgpConnectionStates st
         ∧ new_events st (CreateClient T pIpcName callback st).2
           = [EvCreate pIpcName CLIENT None].
Proof.
  unfold CreateClient, Create, Push, ask.
  answer; rewrite <- ?app_assoc, ?new_events_record; simpl; auto.
Qed.

Lemma for_each_Close_any b callback n : ∀ i st,
  for_each (fun i => Close i b callback) i n st =
  (tt, {| world := world st;
          s_rgpConnectionStates := s_rgpConnectionStates st;
          s_isShutdown := s_isShutdown st;
          next_stream := next_stream st; next_ipc := next_ipc st;
          trace := trace st ++ map (fun i => EvClose i b) (seq i n) |}).
Proof.
  induction n as [|n IH]; intros i st; simpl.
  - rewrite app_nil_r. by destruct st.
  - rewrite IH. simpl. by rewrite <- app_assoc.
Qed.

Lemma closes_pass b l : closes (map (fun i => EvClose i b) l) = map (fun i => (i, b)) l.
Proof. induction l as [|i l IH]; [done|]. simpl. by rewrite <- IH. Qed.

(** X3.  [CloseConnections] has no guard: each call calls [Close] on
    every registered connection, in order, also when it was called
    before.  It leaves the registry and the shutdown flag as they are,
    so [HasActiveConnections] answers as before, and a [Shutdown] that
    follows makes its own pass over the connections already closed. *)
Theorem CloseConnections_has_no_guard isShutdown_of callback callback' st :
  s_rgpConnectionStates (CloseConnections isShutdown_of callback st).2
    = s_rgpConnectionStates st
  ∧ s_isShutdown (CloseConnections isShutdown_of callback st).2 = s_isShutdown st
  ∧ (HasActiveConnections (CloseConnections isShutdown_of callback st).2).1
    = (HasActiveConnections st).1
  ∧ closes (new_events st (CloseConnections isShutdown_of callback st).2)
    = map (fun i => (i, isShutdown_of callback))
        (seq 0 (length (s_rgpConnectionStates st)))
  ∧ closes (new_events (CloseConnections isShutdown_of callback st).2
              (CloseConnections isShutdown_of callback'
                 (CloseConnections isShutdown_of callback st).2).2)
    = map (fun i => (i, isShutdown_of callback'))
        (seq 0 (length (s_rgpConnectionStates st)))
  ∧ new_events (CloseConnections isShutdown_of callback st).2
      (Shutdown callback' (CloseConnections isShutdown_of callback st).2).2
    = if s_isShutdown st then []
      else close_pass (length (s_rgpConnectionStates st)).
Proof.
  assert (Hcc : ∀ cb st, CloseConnections isShutdown_of cb st =
    (tt, {| world := world st;
            s_rgpConnectionStates := s_rgpConnectionStates st;
            s_isShutdown := s_isShutdown st;
            next_stream := next_stream st; next_ipc := next_ipc st;
            trace := trace st ++ map (fun i => EvClose i (isShutdown_of cb))
                                   (seq 0 (length (s_rgpConnectionStates st))) |})).
  { intros cb st0. unfold CloseConnections. simpl. apply for_each_Close_any. }
  rewrite !Hcc. simpl. rewrite !new_events_record, !closes_pass.
  split_and!; try done.
  rewrite Shutdown_eq. simpl.
  destruct (s_isShutdown st); simpl.
  - apply new_events_app. simpl. by rewrite app_nil_r.
  - by rewrite new_events_record.
Qed.

End Registration.

(** ** The backoff at the maximum *)

(** X4.  Once the timeout is at or above the maximum, every further
    step of the backoff gives the maximum, provided the maximum is not
    the infinite value. *)
Theorem backoff_stays_at_maximum K n t :
  t ≠ s_pollTimeoutInfinite K →
  s_pollTimeoutMaxMs K ≠ s_pollTimeoutInfinite K →
  s_pollTimeoutMaxMs K ≤ t →
  backoff K n t = replicate n (Some (s_pollTimeoutMaxMs K)).
Proof.
  revert t. induction n as [|n IH]; intros t Hne Hmx Hle; [done|].
  simpl. rewrite GetNextTimeout_capped by done.
  f_equal. apply IH; [done|done|lia].
Qed.

Lemma backoff_stays_at_maximum_witness :
  571 ≠ s_pollTimeoutInfinite runtime_timeouts
  ∧ s_pollTimeoutMaxMs runtime_timeouts ≠ s_pollTimeoutInfinite runtime_timeouts
  ∧ s_pollTimeoutMaxMs runtime_timeouts ≤ 571
  ∧ backoff runtime_timeouts 3 571 = [Some 500; Some 500; Some 500].
Proof.
  assert (H1 : 571 ≠ s_pollTimeoutInfinite runtime_timeouts) by discriminate.
  assert (H2 : s_pollTimeoutMaxMs runtime_timeouts
               ≠ s_pollTimeoutInfinite runtime_timeouts) by discriminate.
  assert (H3 : s_pollTimeoutMaxMs runtime_timeouts ≤ 571) by discriminate.
  split; [exact H1|]. split; [exact H2|]. split; [exact H3|].
  exact (backoff_stays_at_maximum runtime_timeouts 3 571 H1 H2 H3).
Defined.

(** ** What the acquisition loop leaves alone *)

Section Acquisition.

Context {W : Type}.
Variable T : Transport W.
Variable K : PollTimeouts.

Implicit Types (st : State W) (callback : bool) (this : nat).

Ltac answers :=
  repeat (simpl;
    match goal with
    | |- context [ipc_Connect T ?a ?w] =>
        destruct (ipc_Connect T a w) as [[] ?] eqn:?
    | |- context [ipc_Accept T ?a ?w] =>
        destruct (ipc_Accept T a w) as [[] ?] eqn:?
    | |- context [ipc_SendIpcAdvertise_V1 T ?a ?w] =>
        destruct (ipc_SendIpcAdvertise_V1 T a w) as [[] ?] eqn:?
    | |- context [ipc_Poll T ?h ?t ?w] =>
        destruct (ipc_Poll T h t w) as [[? ?] ?] eqn:?
    | |- context [if ?x then _ else _] => is_var x; destruct x
    end); simpl.

Lemma insert_shape (l : list ConnectionState) i c c0 :
  l !! i = Some c0 → shape c = shape c0 →
  shape <$> <[i:=c]> l = shape <$> l.
Proof.
  intros Hi Hs. rewrite list_fmap_insert, Hs.
  apply list_insert_id. by rewrite list_lookup_fmap, Hi.
Qed.

Lemma GetIpcPollHandle_shape this callback st :
  shape <$> s_rgpConnectionStates (GetIpcPollHandle T this callback st).2
    = shape <$> s_rgpConnectionStates st
  ∧ next_ipc (GetIpcPollHandle T this callback st).2 = next_ipc st.
Proof.
  unfold GetIpcPollHandle, load. simpl.
  destruct (s_rgpConnectionStates st !! this) as [[ipc [s|]|ipc]|] eqn:E;
    simpl; try done.
  unfold ClientConnectionState_GetIpcPollHandle, Connect, SendIpcAdvertise_V1,
    report, ask, store.
  answers; try done. split; [|done]. by eapply insert_shape.
Qed.

Lemma GetConnectedStream_shape this callback st :
  shape <$> s_rgpConnectionStates (GetConnectedStream T this callback st).2
    = shape <$> s_rgpConnectionStates st
  ∧ next_ipc (GetConnectedStream T this callback st).2 = next_ipc st.
Proof.
  unfold GetConnectedStream, load. simpl.
  destruct (s_rgpConnectionStates st !! this) as [[ipc c|ipc]|] eqn:E;
    simpl; try done.
  - split; [|done]. by eapply insert_shape.
  - unfold ServerConnectionState_GetConnectedStream, Accept, ask. by answers.
Qed.

Lemma Reset_shape this callback st :
  shape <$> s_rgpConnectionStates (Reset this callback st).2
    = shape <$> s_rgpConnectionStates st
  ∧ next_ipc (Reset this callback st).2 = next_ipc st.
Proof.
  unfold Reset, load. simpl.
  destruct (s_rgpConnectionStates st !! this) as [[ipc [s|]|ipc]|] eqn:E;
    simpl; try done; (split; [|done]); by eapply insert_shape.
Qed.

Lemma collect_handles_shape callback n : ∀ i st,
  shape <$> s_rgpConnectionStates (collect_handles T callback i n st).2
    = shape <$> s_rgpConnectionStates st
  ∧ next_ipc (collect_handles T callback i n st).2 = next_ipc st.
Proof.
  induction n as [|n IH]; intros i st; simpl; [done|].
  pose proof (GetIpcPollHandle_shape i callback st) as [H1 H1'].
  destruct (GetIpcPollHandle T i callback st) as [h st1].
  pose proof (IH (S i) st1) as [H2 H2'].
  destruct (collect_handles T callback (S i) n st1) as [rest st2].
  simpl in *. destruct h; simpl; split; congruence.
Qed.

Lemma classify_shape callback hs : ∀ pStream t st,
  shape <$> s_rgpConnectionStates (classify T K callback hs pStream t st).2
    = shape <$> s_rgpConnectionStates st
  ∧ next_ipc (classify T K callback hs pStream t st).2 = next_ipc st.
Proof.
  induction hs as [|h hs IH]; intros p t st; simpl; [done|].
  destruct (revents h); simpl; try apply IH; try done.
  - destruct p; [apply IH|]. simpl.
    pose proof (GetConnectedStream_shape (pUserData h) callback st) as [H1 H1'].
    destruct (GetConnectedStream T (pUserData h) callback st) as [p st1].
    destruct (IH p t st1) as [H2 H2']. simpl in *. split; congruence.
  - pose proof (Reset_shape (pUserData h) callback st) as [H1 H1'].
    destruct (Reset (pUserData h) callback st) as [u st1].
    destruct (IH p (s_pollTimeoutMinMs K) st1) as [H2 H2'].
    simpl in *. split; congruence.
Qed.

Lemma iteration_shape callback t st :
  shape <$> s_rgpConnectionStates (iteration T K callback t st).2
    = shape <$> s_rgpConnectionStates st
  ∧ next_ipc (iteration T K callback t st).2 = next_ipc st.
Proof.
  unfold iteration. simpl.
  pose proof (collect_handles_shape callback (length (s_rgpConnectionStates st)) 0 st)
    as [H1 H1'].
  destruct (collect_handles T callback 0 _ st) as [[hs b] st1]. simpl in *.
  destruct (next_poll_timeout K b t) as [t'|]; simpl; [|done].
  unfold poll_and_classify, Poll, ask. simpl.
  destruct (ipc_Poll T hs t' (world st1)) as [[retval rs] w]. simpl.
  destruct (retval =? 0); simpl; [done|].
  match goal with |- context [classify T K callback ?h None t' ?s] =>
    pose proof (classify_shape callback h None t' s) as [H2 H2'];
    destruct (classify T K callback h None t' s) as [c st3]
  end.
  simpl in *. destruct c as [|[s|] t'']; simpl; split; congruence.
Qed.

(** X5.  [GetNextAvailableStream] never adds, removes or reorders
    connections and never changes the role or the endpoint of one: only
    the caches of clients change.  It creates no endpoint. *)
Theorem GetNextAvailableStream_keeps_the_registry fuel callback st :
  shape <$> s_rgpConnectionStates (GetNextAvailableStream T K fuel callback st).2
    = shape <$> s_rgpConnectionStates st
  ∧ length (s_rgpConnectionStates (GetNextAvailableStream T K fuel callback st).2)
    = length (s_rgpConnectionStates st)
  ∧ next_ipc (GetNextAvailableStream T K fuel callback st).2 = next_ipc st.
Proof.
  unfold GetNextAvailableStream.
  assert (H : ∀ t st,
    shape <$> s_rgpConnectionStates (poll_loop T K fuel callback t st).2
      = shape <$> s_rgpConnectionStates st
    ∧ next_ipc (poll_loop T K fuel callback t st).2 = next_ipc st).
  { clear st. induction fuel as [|fuel IH]; intros t st; simpl; [done|].
    pose proof (iteration_shape callback t st) as [H1 H1'].
    destruct (iteration T K callback t st) as [step st1]. simpl in *.
    destruct step as [t'| |]; simpl; try done.
    destruct (IH t' st1) as [H2 H2']. split; congruence. }
  destruct (H (s_pollTimeoutInfinite K) st) as [Hs Hn].
  split; [done|]. split; [|done].
  apply (f_equal length) in Hs. by rewrite !length_fmap in Hs.
Qed.

End Acquisition.

(** Take the transport's answers one at a time. *)
Ltac take_answers T :=
  repeat (simpl;
    match goal with
    | |- context [ipc_Connect T ?a ?w] =>
        destruct (ipc_Connect T a w) as [[] ?] eqn:?
    | |- context [ipc_Accept T ?a ?w] =>
        destruct (ipc_Accept T a w) as [[] ?] eqn:?
    | |- context [ipc_SendIpcAdvertise_V1 T ?a ?w] =>
        destruct (ipc_SendIpcAdvertise_V1 T a w) as [[] ?] eqn:?
    | |- context [ipc_Poll T ?h ?t ?w] =>
        destruct (ipc_Poll T h t w) as [[? ?] ?] eqn:?
    | |- context [if ?x then _ else _] => is_var x; destruct x
    end); simpl.

(** ** The handles of a round *)

From Stdlib Require Import Sorting.Sorted.

Section Handles.

Context {W : Type}.
Variable T : Transport W.
Variable K : PollTimeouts.

Implicit Types (st : State W) (callback : bool) (this : nat).

Lemma GetIpcPollHandle_keeps_cached j callback st i s :
  cached (s_rgpConnectionStates st) i s →
  cached (s_rgpConnectionStates (GetIpcPollHandle T j callback st).2) i s.
Proof.
  intros [ipc0 Hc]. unfold GetIpcPollHandle, load. simpl.
  destruct (s_rgpConnectionStates st !! j) as [[ipc [s'|]|ipc]|] eqn:E;
    simpl; try by exists ipc0.
  unfold ClientConnectionState_GetIpcPollHandle, Connect, SendIpcAdvertise_V1,
    report, ask, store.
  take_answers T; try by exists ipc0.
  exists ipc0. rewrite list_lookup_insert_ne; [done|].
  intros ->. rewrite Hc in E. by simplify_eq.
Qed.

Lemma GetIpcPollHandle_keeps_server j callback st i ipc :
  s_rgpConnectionStates st !! i = Some (ServerConnectionState ipc) →
  s_rgpConnectionStates (GetIpcPollHandle T j callback st).2 !! i
    = Some (ServerConnectionState ipc).
Proof.
  intros Hc. unfold GetIpcPollHandle, load. simpl.
  destruct (s_rgpConnectionStates st !! j) as [[ipc' [s'|]|ipc']|] eqn:E;
    simpl; try done.
  unfold ClientConnectionState_GetIpcPollHandle, Connect, SendIpcAdvertise_V1,
    report, ask, store.
  take_answers T; try done.
  rewrite list_lookup_insert_ne; [done|].
  intros ->. rewrite Hc in E. by simplify_eq.
Qed.

Lemma collect_handles_keeps_cached callback n : ∀ i st j s,
  cached (s_rgpConnectionStates st) j s →
  cached (s_rgpConnectionStates (collect_handles T callback i n st).2) j s.
Proof.
  induction n as [|n IH]; intros i st j s Hc; simpl; [done|].
  pose proof (GetIpcPollHandle_keeps_cached i callback st j s Hc) as H1.
  destruct (GetIpcPollHandle T i callback st) as [h st1].
  pose proof (IH (S i) st1 j s H1) as H2.
  destruct (collect_handles T callback (S i) n st1) as [rest st2].
  by destruct h.
Qed.

Lemma collect_handles_keeps_server callback n : ∀ i st j ipc,
  s_rgpConnectionStates st !! j = Some (ServerConnectionState ipc) →
  s_rgpConnectionStates (collect_handles T callback i n st).2 !! j
    = Some (ServerConnectionState ipc).
Proof.
  induction n as [|n IH]; intros i st j ipc Hc; simpl; [done|].
  pose proof (GetIpcPollHandle_keeps_server i callback st j ipc Hc) as H1.
  destruct (GetIpcPollHandle T i callback st) as [h st1].
  pose proof (IH (S i) st1 j ipc H1) as H2.
  destruct (collect_handles T callback (S i) n st1) as [rest st2].
  by destruct h.
Qed.

(** X6.  The handles a round collects are in registration order, at
    most one per connection, and carry no event.  When the collection
    ends, a client's handle holds the stream that client caches and a
    server's handle holds that server's endpoint: asking the later
    connections for their handles disturbs no earlier handle. *)
Theorem collect_handles_in_order callback n i st :
  StronglySorted lt (map pUserData (collect_handles T callback i n st).1.1)
  ∧ Forall (fun h =>
      (i ≤ pUserData h < i + n)%nat
      ∧ revents h = NONE
      ∧ ((∃ s, pStream h = Some s ∧ pIpc h = None
             ∧ cached (s_rgpConnectionStates (collect_handles T callback i n st).2)
                 (pUserData h) s)
         ∨ (∃ ipc, pIpc h = Some ipc ∧ pStream h = None
             ∧ s_rgpConnectionStates (collect_handles T callback i n st).2
                 !! pUserData h = Some (ServerConnectionState ipc))))
      (collect_handles T callback i n st).1.1.
Proof.
  revert i st. induction n as [|n IH]; intros i st; simpl.
  { split; constructor. }
  pose proof (GetIpcPollHandle_backed T i callback st) as Hb.
  destruct (GetIpcPollHandle T i callback st) as [h st1]. simpl in Hb.
  pose proof (IH (S i) st1) as [Hs Hf].
  pose proof (collect_handles_keeps_cached callback n (S i) st1) as Hkc.
  pose proof (collect_handles_keeps_server callback n (S i) st1) as Hks.
  destruct (collect_handles T callback (S i) n st1) as [[hs b] st2]. simpl in *.
  assert (Hf' : Forall (fun h =>
      (i ≤ pUserData h < i + S n)%nat
      ∧ revents h = NONE
      ∧ ((∃ s, pStream h = Some s ∧ pIpc h = None
             ∧ cached (s_rgpConnectionStates st2) (pUserData h) s)
         ∨ (∃ ipc, pIpc h = Some ipc ∧ pStream h = None
             ∧ s_rgpConnectionStates st2 !! pUserData h
                 = Some (ServerConnectionState ipc)))) hs).
  { eapply Forall_impl; [exact Hf|]. intros h' (? & ? & ?). split; [lia|done]. }
  destruct h as [h|]; simpl; [|done].
  destruct (Hb h eq_refl) as (Hu & Hr & Hown).
  split.
  - constructor; [done|]. apply Forall_fmap.
    eapply Forall_impl; [exact Hf|]. intros h' (? & _). simpl. lia.
  - constructor; [|done]. split; [lia|]. split; [done|].
    destruct Hown as [(ipc & s & Hl & Hp & Hst)|(ipc & Hl & Hp & Hst)].
    + left. exists s. split; [done|]. split; [done|].
      rewrite Hu. apply Hkc. by exists ipc.
    + right. exists ipc. split; [done|]. split; [done|].
      rewrite Hu. by apply Hks.
Qed.

(** A connection that is pollable gives its handle without a
    transport call and without a change of state. *)
Lemma GetIpcPollHandle_pollable this callback st c :
  s_rgpConnectionStates st !! this = Some c → pollable c = true →
  ∃ h, GetIpcPollHandle T this callback st = (Some h, st).
Proof.
  intros Hc Hp. unfold GetIpcPollHandle, load. simpl. rewrite Hc.
  destruct c as [ipc [s|]|ipc]; simpl in *; try done; by eexists.
Qed.

Lemma collect_handles_pollable callback n : ∀ i st,
  (∀ j, (i ≤ j < i + n)%nat →
        ∃ c, s_rgpConnectionStates st !! j = Some c ∧ pollable c = true) →
  ∃ hs, collect_handles T callback i n st = ((hs, true), st) ∧ length hs = n.
Proof.
  induction n as [|n IH]; intros i st Hall; simpl; [by exists []|].
  destruct (Hall i ltac:(lia)) as (c & Hc & Hp).
  destruct (GetIpcPollHandle_pollable i callback st c Hc Hp) as [h ->].
  destruct (IH (S i) st) as (hs & -> & Hlen).
  { intros j Hj. apply Hall. lia. }
  simpl. exists (h :: hs). split; [done|]. simpl. by rewrite Hlen.
Qed.

(** X7.  When every connection is a server or a client with a cached
    stream, the round makes no transport call before [Poll]: it passes
    one handle per connection and the infinite timeout, and the
    timeout variable plays no part. *)
Theorem round_of_pollable_connections callback t st :
  Forall (fun c => pollable c = true) (s_rgpConnectionStates st) →
  (iteration T K callback t st).1 ≠ Undefined
  ∧ ∃ hs retval,
      head (new_events st (iteration T K callback t st).2)
        = Some (EvPoll hs (s_pollTimeoutInfinite K) retval)
      ∧ length hs = length (s_rgpConnectionStates st)
      ∧ polls (new_events st (iteration T K callback t st).2)
        = [(hs, s_pollTimeoutInfinite K, retval)].
Proof.
  intros Hall. unfold iteration. simpl.
  destruct (collect_handles_pollable callback (length (s_rgpConnectionStates st)) 0 st)
    as (hs & -> & Hlen).
  { intros j Hj. destruct (lookup_lt_is_Some_2 (s_rgpConnectionStates st) j) as [c Hc];
      [lia|]. exists c. split; [done|].
    by apply (proj1 (Forall_lookup _ _) Hall j c). }
  simpl.
  pose proof (poll_and_classify_spec T K callback hs (s_pollTimeoutInfinite K) st)
    as (_ & hs' & retval & evs & Ht & Hp & Hl & Hu & _).
  split; [done|]. exists hs', retval.
  rewrite (new_events_app _ _ _ Ht). simpl. rewrite Hp.
  split; [done|]. split; [congruence|done].
Qed.

End Handles.

(** ** A registry of servers *)

Section Servers.

Context {W : Type}.
Variable T : Transport W.
Variable K : PollTimeouts.

Implicit Types (st : State W) (callback : bool) (this : nat).

Lemma servers_lookup (l : list ConnectionState) j c :
  Forall (fun c => is_server c = true) l → l !! j = Some c →
  ∃ ipc, c = ServerConnectionState ipc.
Proof.
  intros Hall Hj. pose proof (proj1 (Forall_lookup _ _) Hall j c Hj) as Hs.
  destruct c; [done|]. by eexists.
Qed.

Lemma deleted_more evs evs' : deleted (evs ++ evs') = deleted evs ++ deleted evs'.
Proof. unfold deleted. apply omap_app. Qed.

Lemma polls_more evs evs' : polls (evs ++ evs') = polls evs ++ polls evs'.
Proof. unfold polls. apply omap_app. Qed.

Lemma classify_servers callback hs : ∀ p t st,
  Forall (fun c => is_server c = true) (s_rgpConnectionStates st) →
  s_rgpConnectionStates (classify T K callback hs p t st).2 = s_rgpConnectionStates st
  ∧ ∃ evs, trace (classify T K callback hs p t st).2 = trace st ++ evs
      ∧ polls evs = [] ∧ deleted evs = []
      ∧ ∀ s t', (classify T K callback hs p t st).1 = Classify_done (Some s) t' →
          p = Some s ∨ ∃ ipc, EvAccept ipc (Some s) ∈ evs.
Proof.
  induction hs as [|h hs IH]; intros p t st Hall; simpl.
  { split; [done|]. exists []. rewrite app_nil_r. split_and!; try done.
    intros s t' [= -> _]. by left. }
  assert (Hskip : ∀ t0,
    s_rgpConnectionStates (classify T K callback hs p t0 st).2 = s_rgpConnectionStates st
    ∧ ∃ evs, trace (classify T K callback hs p t0 st).2 = trace st ++ evs
        ∧ polls evs = [] ∧ deleted evs = []
        ∧ ∀ s t', (classify T K callback hs p t0 st).1 = Classify_done (Some s) t' →
            p = Some s ∨ ∃ ipc, EvAccept ipc (Some s) ∈ evs)
    by (intros t0; by apply IH).
  destruct (revents h); simpl; try apply Hskip.
  - destruct p as [s0|]; [apply Hskip|]. simpl.
    unfold GetConnectedStream, load. simpl.
    destruct (s_rgpConnectionStates st !! pUserData h) as [c|] eqn:E; simpl.
    + destruct (servers_lookup _ _ _ Hall E) as [ipc ->]. simpl.
      unfold ServerConnectionState_GetConnectedStream, Accept, ask. simpl.
      destruct (ipc_Accept T ipc (world st)) as [[] w]; simpl.
      * match goal with |- context [classify T K callback hs ?q t ?s1] =>
          destruct (IH q t s1 Hall) as (Hr & evs & Ht & Hp & Hd & Hres) end.
        split; [done|]. exists (EvAccept ipc (Some (next_stream st)) :: evs).
        simpl in *. rewrite Ht, <- app_assoc. split_and!; try done.
        intros s t' Hc. right.
        destruct (Hres s t' Hc) as [[= <-]|[ipc' Hin]].
        -- exists ipc. apply elem_of_cons. by left.
        -- exists ipc'. apply elem_of_cons. by right.
      * match goal with |- context [classify T K callback hs ?q t ?s1] =>
          destruct (IH q t s1 Hall) as (Hr & evs & Ht & Hp & Hd & Hres) end.
        split; [done|]. exists (EvAccept ipc None :: evs).
        simpl in *. rewrite Ht, <- app_assoc. split_and!; try done.
        intros s t' Hc. right.
        destruct (Hres s t' Hc) as [[=]|[ipc' Hin]].
        exists ipc'. apply elem_of_cons. by right.
    + destruct (IH None t st Hall) as (Hr & evs & Ht & Hp & Hd & Hres).
      split; [done|]. exists evs. split_and!; try done.
  - unfold Reset, load. simpl.
    destruct (s_rgpConnectionStates st !! pUserData h) as [c|] eqn:E; simpl.
    + destruct (servers_lookup _ _ _ Hall E) as [ipc ->]. simpl. apply Hskip.
    + apply Hskip.
  - split; [done|]. exists []. rewrite app_nil_r. split_and!; try done.
Qed.

Lemma iteration_servers callback t st :
  Forall (fun c => is_server c = true) (s_rgpConnectionStates st) →
  s_rgpConnectionStates (iteration T K callback t st).2 = s_rgpConnectionStates st
  ∧ (iteration T K callback t st).1 ≠ Undefined
  ∧ ∃ hs retval evs,
      trace (iteration T K callback t st).2
        = trace st ++ EvPoll hs (s_pollTimeoutInfinite K) retval :: evs
      ∧ polls evs = [] ∧ deleted evs = []
      ∧ length hs = length (s_rgpConnectionStates st)
      ∧ ∀ s, (iteration T K callback t st).1 = Return (Some s) →
          ∃ ipc, EvAccept ipc (Some s) ∈ evs.
Proof.
  intros Hall. unfold iteration. simpl.
  destruct (collect_handles_pollable T callback (length (s_rgpConnectionStates st)) 0 st)
    as (hs & -> & Hlen).
  { intros j Hj. destruct (lookup_lt_is_Some_2 (s_rgpConnectionStates st) j) as [c Hc];
      [lia|]. exists c. split; [done|].
    destruct (servers_lookup _ _ _ Hall Hc) as [ipc ->]. done. }
  simpl. unfold poll_and_classify, Poll, ask. simpl.
  destruct (ipc_Poll T hs (s_pollTimeoutInfinite K) (world st)) as [[retval rs] w].
  simpl. destruct (retval =? 0); simpl.
  - split; [done|]. split; [done|].
    exists (write_revents hs rs), retval, []. rewrite write_revents_length.
    split_and!; try done.
  - match goal with |- context [classify T K callback ?h None ?t0 ?s1] =>
      destruct (classify_servers callback h None t0 s1 Hall)
        as (Hr & evs & Ht & Hp & Hd & Hres);
      destruct (classify T K callback h None t0 s1) as [c st3]
    end.
    simpl in *. split; [by destruct c as [|[s|] t']|].
    split; [by destruct c as [|[s|] t']|].
    exists (write_revents hs rs), retval, evs. rewrite write_revents_length.
    split; [destruct c as [|[s|] t']; simpl; by rewrite Ht, <- app_assoc|].
    split_and!; try done.
    intros s Hs. destruct c as [|[s'|] t']; simpl in Hs; try done.
    simplify_eq. destruct (Hres s t' eq_refl) as [[=]|?]; done.
Qed.

(** X8.  With only servers registered the loop never backs off and
    never changes the registry: every [Poll] is given one handle per
    server and the infinite timeout, no stream is destroyed, the
    timeout computation is never reached, and a stream that is returned
    was accepted during this call. *)
Theorem servers_never_back_off fuel callback st :
  Forall (fun c => is_server c = true) (s_rgpConnectionStates st) →
  s_rgpConnectionStates (GetNextAvailableStream T K fuel callback st).2
    = s_rgpConnectionStates st
  ∧ (GetNextAvailableStream T K fuel callback st).1 ≠ UndefinedBehaviour
  ∧ Forall (fun p => poll_timeout p = s_pollTimeoutInfinite K
                     ∧ length (poll_handles p) = length (s_rgpConnectionStates st))
      (polls (new_events st (GetNextAvailableStream T K fuel callback st).2))
  ∧ deleted (new_events st (GetNextAvailableStream T K fuel callback st).2) = []
  ∧ ∀ s, (GetNextAvailableStream T K fuel callback st).1 = Returned (Some s) →
      ∃ ipc, EvAccept ipc (Some s)
               ∈ new_events st (GetNextAvailableStream T K fuel callback st).2.
Proof.
  intros Hall. unfold GetNextAvailableStream.
  assert (H : ∀ t st,
    Forall (fun c => is_server c = true) (s_rgpConnectionStates st) →
    s_rgpConnectionStates (poll_loop T K fuel callback t st).2 = s_rgpConnectionStates st
    ∧ (poll_loop T K fuel callback t st).1 ≠ UndefinedBehaviour
    ∧ ∃ evs, trace (poll_loop T K fuel callback t st).2 = trace st ++ evs
        ∧ Forall (fun p => poll_timeout p = s_pollTimeoutInfinite K
                           ∧ length (poll_handles p) = length (s_rgpConnectionStates st))
            (polls evs)
        ∧ deleted evs = []
        ∧ ∀ s, (poll_loop T K fuel callback t st).1 = Returned (Some s) →
            ∃ ipc, EvAccept ipc (Some s) ∈ evs).
  { clear st Hall. induction fuel as [|fuel IH]; intros t st Hall; simpl.
    { split; [done|]. split; [done|]. exists []. rewrite app_nil_r.
      split_and!; try done. }
    destruct (iteration_servers callback t st Hall)
      as (Hr & Hu & hs & retval & evs & Ht & Hp & Hd & Hlen & Hacc).
    destruct (iteration T K callback t st) as [step st1]. simpl in *.
    destruct step as [t'|r|]; simpl; [| |done].
    - rewrite <- Hr in Hall.
      destruct (IH t' st1 Hall) as (Hr2 & Hu2 & evs2 & Ht2 & Hp2 & Hd2 & Hacc2).
      split; [congruence|]. split; [done|].
      exists ((EvPoll hs (s_pollTimeoutInfinite K) retval :: evs) ++ evs2).
      rewrite Ht2, Ht, <- app_assoc.
      split; [done|]. rewrite polls_more, deleted_more. simpl. rewrite Hp, Hd, Hd2.
      simpl. split_and!; try done.
      + constructor; [done|]. by rewrite <- Hr.
      + intros s Hs. destruct (Hacc2 s Hs) as [ipc Hin]. exists ipc.
        apply elem_of_cons. right. apply elem_of_app. by right.
    - split; [done|]. split; [done|].
      exists (EvPoll hs (s_pollTimeoutInfinite K) retval :: evs).
      split; [done|]. simpl. rewrite Hp, Hd. split_and!; try done.
      + by constructor.
      + intros s [= ->]. destruct (Hacc s eq_refl) as [ipc Hin].
        exists ipc. apply elem_of_cons. by right. }
  destruct (H (s_pollTimeoutInfinite K) st Hall) as (Hr & Hu & evs & Ht & Hp & Hd & Hacc).
  rewrite (new_events_app _ _ _ Ht). done.
Qed.

End Servers.

(** ** The history of streams *)

Section History.

Context {W : Type}.
Variable T : Transport W.
Variable K : PollTimeouts.

Implicit Types (st : State W) (callback : bool) (this : nat).

Lemma tidy_own_next out l n n' del :
  (n ≤ n')%nat → tidy_own out l n del → tidy_own out l n' del.
Proof. intros Hle (Hwf & Hnd & Ho). split; [by eapply wf_own_next|done]. Qed.

Lemma tidy_own_cache_fresh out l n del i ipc :
  tidy_own out l n del →
  tidy_own out (<[i:=ClientConnectionState ipc (Some n)]> l) (S n) del.
Proof. intros (Hwf & Hnd & Ho). split; [by apply wf_own_cache_fresh|done]. Qed.

Lemma tidy_own_delete_fresh out l n del :
  tidy_own out l n del → tidy_own out l (S n) (del ++ [n]).
Proof.
  intros (Hwf & Hnd & Ho). split; [by apply wf_own_delete_fresh|]. split.
  - apply NoDup_app. split; [done|]. split; [|apply NoDup_singleton].
    intros s Hs ->%list_elem_of_singleton.
    pose proof (wf_deleted _ _ _ _ Hwf _ Hs). lia.
  - intros s Hs. rewrite elem_of_app, list_elem_of_singleton.
    intros [Hd| ->]; [by apply (Ho s)|].
    pose proof (wf_out _ _ _ _ Hwf _ Hs). lia.
Qed.

Lemma tidy_own_reset out l n del i ipc c :
  l !! i = Some (ClientConnectionState ipc c) →
  tidy_own out l n del →
  tidy_own out (<[i:=ClientConnectionState ipc None]> l) n (del ++ option_list c).
Proof.
  intros Hi (Hwf & Hnd & Ho). split; [by apply wf_own_reset|].
  destruct c as [s|]; simpl; [|by rewrite app_nil_r].
  destruct (wf_cached _ _ _ _ Hwf i s) as (_ & Hsd & Hso); [by exists ipc|].
  split.
  - apply NoDup_app. split; [done|]. split; [|apply NoDup_singleton].
    by intros s' Hs ->%list_elem_of_singleton.
  - intros s' Hs. rewrite elem_of_app, list_elem_of_singleton.
    intros [Hd| ->]; [by apply (Ho s')|done].
Qed.

Lemma tidy_own_claim out l n del i ipc c :
  l !! i = Some (ClientConnectionState ipc c) →
  tidy_own out l n del →
  tidy_own (option_list c ++ out) (<[i:=ClientConnectionState ipc None]> l) n del.
Proof.
  intros Hi (Hwf & Hnd & Ho). split; [by apply wf_own_claim|]. split; [done|].
  destruct c as [s|]; simpl; [|done].
  destruct (wf_cached _ _ _ _ Hwf i s) as (_ & Hsd & Hso); [by exists ipc|].
  intros s'. rewrite elem_of_cons. intros [->|Hs]; [done|by apply Ho].
Qed.

Lemma tidy_own_accept out l n del :
  tidy_own out l n del → tidy_own (n :: out) l (S n) del.
Proof.
  intros (Hwf & Hnd & Ho). split; [by apply wf_own_accept|]. split; [done|].
  intros s. rewrite elem_of_cons. intros [->|Hs]; [|by apply Ho].
  intros Hd. pose proof (wf_deleted _ _ _ _ Hwf _ Hd). lia.
Qed.

Lemma tidy_own_drop out' out l n del :
  tidy_own (out' ++ out) l n del → tidy_own out l n del.
Proof.
  intros (Hwf & Hnd & Ho). split; [by eapply wf_own_drop|]. split; [done|].
  intros s Hs. apply Ho. rewrite elem_of_app. by right.
Qed.

Lemma tidy_own_push out l n del c :
  (∀ ipc s, c ≠ ClientConnectionState ipc (Some s)) →
  tidy_own out l n del → tidy_own out (l ++ [c]) n del.
Proof. intros Hc (Hwf & Hnd & Ho). split; [by apply wf_own_push|done]. Qed.

Ltac tidy_now :=
  unfold tidy in *; simpl; rewrite ?deleted_more; simpl; rewrite ?app_nil_r;
  eauto using tidy_own_cache_fresh, tidy_own_delete_fresh, tidy_own_accept,
    tidy_own_next.

Lemma GetIpcPollHandle_tidy out this callback st :
  tidy out st → tidy out (GetIpcPollHandle T this callback st).2.
Proof.
  intros Hwf. unfold GetIpcPollHandle, load. simpl.
  destruct (s_rgpConnectionStates st !! this) as [[ipc [s|]|ipc]|];
    simpl; try done.
  unfold ClientConnectionState_GetIpcPollHandle, Connect, SendIpcAdvertise_V1,
    report, ask, store.
  take_answers T; tidy_now.
Qed.

Lemma Reset_tidy out this callback st :
  tidy out st → tidy out (Reset this callback st).2.
Proof.
  intros Hwf. unfold Reset, load. simpl.
  destruct (s_rgpConnectionStates st !! this) as [[ipc c|ipc]|] eqn:E;
    simpl; try done.
  pose proof (tidy_own_reset _ _ _ _ _ _ _ E Hwf) as H.
  destruct c as [s|]; simpl in *; rewrite ?app_nil_r in H; tidy_now.
Qed.

Lemma GetConnectedStream_tidy out this callback st :
  tidy out st →
  tidy (option_list (GetConnectedStream T this callback st).1 ++ out)
       (GetConnectedStream T this callback st).2.
Proof.
  intros Hwf. unfold GetConnectedStream, load. simpl.
  destruct (s_rgpConnectionStates st !! this) as [[ipc c|ipc]|] eqn:E;
    simpl; try done.
  - apply (tidy_own_claim _ _ _ _ _ _ _ E Hwf).
  - unfold ServerConnectionState_GetConnectedStream, Accept, ask.
    take_answers T; tidy_now.
Qed.

Lemma collect_handles_tidy out callback n : ∀ i st,
  tidy out st → tidy out (collect_handles T callback i n st).2.
Proof.
  induction n as [|n IH]; intros i st Hwf; simpl; [done|].
  pose proof (GetIpcPollHandle_tidy out i callback st Hwf) as H1.
  destruct (GetIpcPollHandle T i callback st) as [h st1].
  pose proof (IH (S i) st1 H1) as H2.
  destruct (collect_handles T callback (S i) n st1) as [rest st2].
  by destruct h.
Qed.

Lemma classify_tidy out callback hs : ∀ pStream pollTimeoutMs st,
  tidy (option_list pStream ++ out) st →
  match (classify T K callback hs pStream pollTimeoutMs st).1 with
  | PollError => tidy out (classify T K callback hs pStream pollTimeoutMs st).2
  | Classify_done p _ =>
      tidy (option_list p ++ out) (classify T K callback hs pStream pollTimeoutMs st).2
  end.
Proof.
  induction hs as [|h hs IH]; intros p t st Hwf; simpl; [done|].
  destruct (revents h); simpl; try by apply IH.
  - destruct p as [s|]; [by apply IH|]. simpl.
    pose proof (GetConnectedStream_tidy out (pUserData h) callback st Hwf) as H1.
    destruct (GetConnectedStream T (pUserData h) callback st) as [p st1].
    by apply IH.
  - pose proof (Reset_tidy _ (pUserData h) callback st Hwf) as H1.
    destruct (Reset (pUserData h) callback st) as [u st1].
    by apply IH.
  - by eapply tidy_own_drop.
Qed.

Lemma iteration_tidy out callback pollTimeoutMs st :
  tidy out st →
  tidy (match (iteration T K callback pollTimeoutMs st).1 with
        | Return p => option_list p
        | _ => []
        end ++ out) (iteration T K callback pollTimeoutMs st).2.
Proof.
  intros Hwf. unfold iteration. simpl.
  pose proof (collect_handles_tidy out callback
                (length (s_rgpConnectionStates st)) 0 st Hwf) as H1.
  destruct (collect_handles T callback 0 _ st) as [[hs b] st1]. simpl in *.
  destruct (next_poll_timeout K b pollTimeoutMs) as [t|]; simpl; [|done].
  unfold poll_and_classify, Poll, ask. simpl.
  destruct (ipc_Poll T hs t (world st1)) as [[retval rs] w]. simpl.
  destruct (retval =? 0); simpl; [tidy_now|].
  match goal with |- context [classify T K callback ?h None t ?s] =>
    pose proof (classify_tidy out callback h None t s) as H;
    destruct (classify T K callback h None t s) as [c st3]
  end.
  simpl in H. destruct c as [|[s|] t']; simpl in *; apply H; tidy_now.
Qed.

Lemma poll_loop_tidy out callback fuel : ∀ t st,
  tidy out st →
  tidy (match (poll_loop T K fuel callback t st).1 with
        | Returned p => option_list p
        | _ => []
        end ++ out) (poll_loop T K fuel callback t st).2.
Proof.
  induction fuel as [|fuel IH]; intros t st Hwf; simpl; [done|].
  pose proof (iteration_tidy out callback t st Hwf) as H1.
  destruct (iteration T K callback t st) as [step st1]. simpl in *.
  destruct step as [t'|r|]; simpl; [by apply IH|done..].
Qed.

Lemma tidy_initial (w : W) : tidy [] (initial w).
Proof.
  split; [apply wf_initial|]. split; [apply NoDup_nil_2|].
  by intros s ?%elem_of_nil.
Qed.

Lemma CreateClient_tidy out pIpcName callback st :
  tidy out st → tidy out (CreateClient T pIpcName callback st).2.
Proof.
  intros Hwf. unfold CreateClient, Create, Push, ask. simpl.
  destruct (ipc_Create T pIpcName CLIENT (world st)) as [[] w]; simpl; tidy_now.
  by apply tidy_own_push.
Qed.

Lemma CreateServer_tidy out pIpcName callback st :
  tidy out st → tidy out (CreateServer T pIpcName callback st).2.
Proof.
  intros Hwf. unfold CreateServer, Create, Listen, Push, ask. simpl.
  destruct (ipc_Create T pIpcName SERVER (world st)) as [[] w]; simpl; tidy_now.
  destruct (ipc_Listen T (next_ipc st) w) as [[] w']; simpl; tidy_now.
  by apply tidy_own_push.
Qed.

(** X9.  The factory destroys no stream twice: if no stream was
    destroyed twice before a call of [GetNextAvailableStream] (and
    ownership was well-formed), none is after it, however the call
    ends. *)
Theorem no_stream_is_destroyed_twice fuel callback out st :
  tidy out st →
  NoDup (deleted (trace (GetNextAvailableStream T K fuel callback st).2)).
Proof.
  intros Hwf. unfold GetNextAvailableStream.
  pose proof (poll_loop_tidy out callback fuel (s_pollTimeoutInfinite K) st Hwf)
    as (_ & Hnd & _). done.
Qed.

(** X10.  A stream handed to a caller is the caller's alone: the call
    that returns it has not destroyed it and leaves it in no cache, and
    no later call of [GetNextAvailableStream] destroys it or returns it
    again. *)
Theorem handed_streams_are_left_alone fuel callback out st :
  tidy out st →
  (∀ s, s ∈ out →
     (s ∉ deleted (trace (GetNextAvailableStream T K fuel callback st).2))
     ∧ (GetNextAvailableStream T K fuel callback st).1 ≠ Returned (Some s))
  ∧ ∀ s, (GetNextAvailableStream T K fuel callback st).1 = Returned (Some s) →
      (s ∉ deleted (trace (GetNextAvailableStream T K fuel callback st).2))
      ∧ (∀ i, ¬ cached (s_rgpConnectionStates
                          (GetNextAvailableStream T K fuel callback st).2) i s)
      ∧ tidy (s :: out) (GetNextAvailableStream T K fuel callback st).2.
Proof.
  intros Hwf. unfold GetNextAvailableStream.
  pose proof (poll_loop_tidy out callback fuel (s_pollTimeoutInfinite K) st Hwf) as H.
  split.
  - intros s Hs.
    destruct (poll_loop T K fuel callback (s_pollTimeoutInfinite K) st) as [o st1].
    simpl in *. destruct H as (Hw & Hnd & Ho). split.
    + apply Ho. rewrite elem_of_app. by right.
    + intros ->. simpl in *.
      pose proof (wf_distinct _ _ _ _ Hw) as Hd. by apply NoDup_cons in Hd as [? _].
  - intros s Hs. rewrite Hs in H. simpl in H.
    destruct H as (Hw & Hnd & Ho). split_and!.
    + apply Ho. rewrite elem_of_cons. by left.
    + intros i Hc. destruct (wf_cached _ _ _ _ Hw i s Hc) as (_ & _ & Hn).
      apply Hn. rewrite elem_of_cons. by left.
    + done.
Qed.

End History.

(** ** Rounds in which no peer is there *)

Section Backoff.

Context {W : Type}.
Variable T : Transport W.
Variable K : PollTimeouts.

Implicit Types (st : State W) (callback : bool) (this : nat).

Lemma GetIpcPollHandle_absent this callback st c :
  (∀ ipc w, (ipc_Connect T ipc w).1 = false) →
  s_rgpConnectionStates st !! this = Some c → disconnected c = true →
  (GetIpcPollHandle T this callback st).1 = None
  ∧ s_rgpConnectionStates (GetIpcPollHandle T this callback st).2
    = s_rgpConnectionStates st.
Proof.
  intros Habs Hc Hd. unfold GetIpcPollHandle, load. simpl. rewrite Hc.
  destruct c as [ipc [s|]|ipc]; simpl in *; try done.
  unfold ClientConnectionState_GetIpcPollHandle, Connect, report, ask. simpl.
  pose proof (Habs ipc (world st)) as Hf.
  destruct (ipc_Connect T ipc (world st)) as [ok w]. simpl in Hf. subst ok.
  simpl. by destruct callback.
Qed.

Lemma collect_handles_absent callback n : ∀ i st,
  (∀ ipc w, (ipc_Connect T ipc w).1 = false) →
  (∀ j, (i ≤ j < i + n)%nat →
        ∃ c, s_rgpConnectionStates st !! j = Some c ∧ disconnected c = true) →
  (collect_handles T callback i n st).1 = ([], bool_decide (n = 0%nat))
  ∧ s_rgpConnectionStates (collect_handles T callback i n st).2
    = s_rgpConnectionStates st.
Proof.
  induction n as [|n IH]; intros i st Habs Hall; simpl; [done|].
  destruct (Hall i ltac:(lia)) as (c & Hc & Hd).
  destruct (GetIpcPollHandle_absent i callback st c Habs Hc Hd) as [H1 H1'].
  destruct (GetIpcPollHandle T i callback st) as [h st1]. simpl in *. subst h.
  destruct (IH (S i) st1 Habs) as [H2 H2'].
  { intros j Hj. rewrite H1'. apply Hall. lia. }
  destruct (collect_handles T callback (S i) n st1) as [[hs b] st2].
  simpl in *. simplify_eq. split; [done|congruence].
Qed.

Lemma iteration_absent callback t st :
  (∀ ipc w, (ipc_Connect T ipc w).1 = false) →
  s_rgpConnectionStates st ≠ [] →
  Forall (fun c => disconnected c = true) (s_rgpConnectionStates st) →
  s_rgpConnectionStates (iteration T K callback t st).2 = s_rgpConnectionStates st
  ∧ ∃ evs, trace (iteration T K callback t st).2 = trace st ++ evs
    ∧ match GetNextTimeout K t with
      | Some t' => (iteration T K callback t st).1 = Continue t'
                   ∧ ∃ retval, polls evs = [([], t', retval)]
      | None => (iteration T K callback t st).1 = Undefined ∧ polls evs = []
      end.
Proof.
  intros Habs Hne Hall. unfold iteration. simpl.
  pose proof (collect_handles_quiet T callback (length (s_rgpConnectionStates st)) 0 st)
    as (_ & _ & _ & evs1 & Ht1 & Hp1).
  destruct (collect_handles_absent callback (length (s_rgpConnectionStates st)) 0 st Habs)
    as [H1 H1'].
  { intros j Hj. destruct (lookup_lt_is_Some_2 (s_rgpConnectionStates st) j) as [c Hc];
      [lia|]. exists c. split; [done|].
    by apply (proj1 (Forall_lookup _ _) Hall j c). }
  destruct (collect_handles T callback 0 _ st) as [[hs b] st1]. simpl in *.
  simplify_eq. rewrite bool_decide_eq_false_2
    by (by destruct (s_rgpConnectionStates st)).
  unfold next_poll_timeout.
  destruct (GetNextTimeout K t) as [t'|]; simpl.
  - unfold poll_and_classify, Poll, ask. simpl.
    destruct (ipc_Poll T [] t' (world st1)) as [[retval rs] w]. simpl.
    split; [by destruct (retval =? 0)|].
    exists (evs1 ++ [EvPoll [] t' retval]).
    split; [destruct (retval =? 0); simpl; by rewrite Ht1, <- app_assoc|].
    split; [by destruct (retval =? 0)|].
    exists retval. by rewrite polls_more, Hp1.
  - split; [done|]. exists evs1. by rewrite Hp1.
Qed.

(** X11.  While every registered connection is a client whose
    [Connect] fails, the call does not return and the timeouts it
    passes to [Poll] are the backoff sequence: [GetNextTimeout] of the
    infinite timeout, then [GetNextTimeout] of each timeout in turn.
    Every such [Poll] has no handle to wait on.  The registry stays as
    it is. *)
Theorem absent_peers_follow_the_backoff fuel callback st ts :
  (∀ ipc w, (ipc_Connect T ipc w).1 = false) →
  s_rgpConnectionStates st ≠ [] →
  Forall (fun c => disconnected c = true) (s_rgpConnectionStates st) →
  backoff K fuel (s_pollTimeoutInfinite K) = map Some ts →
  (∃ t, (GetNextAvailableStream T K fuel callback st).1 = OutOfFuel t)
  ∧ map poll_timeout
      (polls (new_events st (GetNextAvailableStream T K fuel callback st).2)) = ts
  ∧ Forall (fun p => poll_handles p = [])
      (polls (new_events st (GetNextAvailableStream T K fuel callback st).2))
  ∧ s_rgpConnectionStates (GetNextAvailableStream T K fuel callback st).2
    = s_rgpConnectionStates st.
Proof.
  intros Habs Hne Hall. unfold GetNextAvailableStream.
  generalize (s_pollTimeoutInfinite K) as t. intros t Hb.
  assert (H : ∃ evs,
    trace (poll_loop T K fuel callback t st).2 = trace st ++ evs
    ∧ (∃ t', (poll_loop T K fuel callback t st).1 = OutOfFuel t')
    ∧ map poll_timeout (polls evs) = ts
    ∧ Forall (fun p => poll_handles p = []) (polls evs)
    ∧ s_rgpConnectionStates (poll_loop T K fuel callback t st).2
      = s_rgpConnectionStates st).
  { revert t st ts Hne Hall Hb.
    induction fuel as [|fuel IH]; intros t st ts Hne Hall Hb; simpl in *.
    { exists []. rewrite app_nil_r. destruct ts; [|done].
      split_and!; eauto. }
    destruct (iteration_absent callback t st Habs Hne Hall) as (Hr & evs1 & Ht1 & H1).
    destruct (iteration T K callback t st) as [step st1]. simpl in *.
    destruct (GetNextTimeout K t) as [t'|]; [|by destruct ts as [|? []]].
    destruct H1 as (-> & retval & Hp1).
    destruct ts as [|t0 ts]; [done|]. simpl in Hb. simplify_eq.
    destruct (IH t0 st1 ts) as (evs2 & Ht2 & Ho & Hm & Hf & Hr2);
      [by rewrite Hr|by rewrite Hr|done|].
    exists (evs1 ++ evs2). rewrite Ht2, Ht1, <- app_assoc.
    rewrite polls_more, Hp1. simpl. rewrite Hm.
    split_and!; try done.
    - by constructor.
    - congruence. }
  destruct H as (evs & Ht & Ho & Hm & Hf & Hr).
  rewrite (new_events_app _ _ _ Ht). done.
Qed.

End Backoff.

(** ** The range of the timeouts *)

Lemma classic_reports p : reports HANGUP p ∨ ¬ reports HANGUP p.
Proof.
  unfold reports.
  destruct (decide (p.2 = 0)) as [?|?]; [right; by intros [? _]|].
  destruct (decide (HANGUP ∈ map revents p.1.1)) as [?|?]; [by left|].
  right. by intros [_ ?].
Qed.

Section Range.

Context {W : Type}.
Variable T : Transport W.
Variable K : PollTimeouts.

Implicit Types (st : State W) (callback : bool).

(** X12.  If [GetNextTimeout] maps a set of timeouts that holds the
    minimum into itself, then whatever the transport answers the loop
    never reaches the undefined conversion, and every timeout it passes
    to [Poll] is the infinite one or lies in the set. *)
Theorem timeouts_stay_in_closed_set (P : Z → Prop) fuel callback st :
  (∀ t, P t → ∃ t', GetNextTimeout K t = Some t' ∧ P t') →
  P (s_pollTimeoutMinMs K) →
  (GetNextAvailableStream T K fuel callback st).1 ≠ UndefinedBehaviour
  ∧ Forall (fun p => poll_timeout p = s_pollTimeoutInfinite K
                     ∨ P (poll_timeout p))
      (polls (new_events st (GetNextAvailableStream T K fuel callback st).2)).
Proof.
  intros Hclosed Hmin. unfold GetNextAvailableStream.
  assert (Hnext : ∀ t, t = s_pollTimeoutInfinite K ∨ P t →
            ∃ t', GetNextTimeout K t = Some t' ∧ P t').
  { intros t [->|Ht]; [|by apply Hclosed].
    exists (s_pollTimeoutMinMs K). split; [apply GetNextTimeout_infinite|done]. }
  assert (H : ∀ t st, t = s_pollTimeoutInfinite K ∨ P t →
    (poll_loop T K fuel callback t st).1 ≠ UndefinedBehaviour
    ∧ ∃ evs, trace (poll_loop T K fuel callback t st).2 = trace st ++ evs
        ∧ Forall (fun p => poll_timeout p = s_pollTimeoutInfinite K
                           ∨ P (poll_timeout p)) (polls evs)).
  { clear st. induction fuel as [|fuel IH]; intros t st Ht; simpl.
    { split; [done|]. exists []. rewrite app_nil_r. split; [done|constructor]. }
    destruct (Hnext t Ht) as (t1 & Hg & Ht1).
    pose proof (iteration_polls T K callback t st) as (_ & evs1 & Htr & H1).
    destruct (iteration T K callback t st) as [step st1]. simpl in *.
    destruct (polls evs1) as [|p [|]] eqn:Hp; [| |done].
    { destruct H1 as [_ Hn]. congruence. }
    destruct H1 as (Hu & Hto & _ & Hc).
    assert (Hp_ok : poll_timeout p = s_pollTimeoutInfinite K ∨ P (poll_timeout p)).
    { unfold poll_timeout. destruct Hto as [[_ ->]|[_ Hg']]; [by left|].
      right. rewrite Hg in Hg'. by simplify_eq. }
    destruct step as [t'|r|]; simpl; [| |done].
    - assert (Ht' : t' = s_pollTimeoutInfinite K ∨ P t').
      { destruct (Hc t' eq_refl) as [Hh Hn].
        destruct (classic_reports p) as [Hr|Hr].
        - right. by rewrite (Hh Hr).
        - by rewrite (Hn Hr). }
      destruct (IH t' st1 Ht') as (Hu2 & evs2 & Htr2 & Hf2).
      split; [done|]. exists (evs1 ++ evs2).
      rewrite Htr2, Htr, <- app_assoc. split; [done|].
      rewrite polls_more, Hp. simpl. by constructor.
    - split; [done|]. exists evs1. split; [done|]. rewrite Hp.
      constructor; [done|constructor]. }
  destruct (H (s_pollTimeoutInfinite K) st) as (Hu & evs & Ht & Hf); [by left|].
  by rewrite (new_events_app _ _ _ Ht).
Qed.

End Range.

(** ** The shutdown flag and the acquisition loop *)

Section Flag.

Context {W : Type}.
Variable T : Transport W.
Variable K : PollTimeouts.

Implicit Types (st : State W) (callback : bool) (this : nat).

Lemma flagless_ret {A} (a : A) : flagless (ret (W:=W) a).
Proof. by intros b st. Qed.

Lemma flagless_bind {A B} (m : M A) (k : A → M B) :
  flagless m → (∀ a, flagless (k a)) → flagless (W:=W) (bind m k).
Proof.
  intros Hm Hk b st. unfold bind. rewrite (Hm b st).
  destruct (m st) as [a st1]. simpl. apply Hk.
Qed.

Lemma flagless_get_connections : flagless (get_connections (W:=W)).
Proof. by intros b st. Qed.

Lemma flagless_set_connections l : flagless (set_connections (W:=W) l).
Proof. by intros b st. Qed.

Lemma flagless_emit e : flagless (emit (W:=W) e).
Proof. by intros b st. Qed.

Lemma flagless_new_stream : flagless (new_stream (W:=W)).
Proof. by intros b st. Qed.

Lemma flagless_ask {A} (f : W → A * W) : flagless (ask f).
Proof. intros b st. unfold ask. simpl. by destruct (f (world st)). Qed.

Ltac flagless_now :=
  repeat first
    [ apply flagless_ret
    | apply flagless_get_connections
    | apply flagless_set_connections
    | apply flagless_emit
    | apply flagless_new_stream
    | apply flagless_ask
    | assumption
    | apply flagless_bind; [|intros ?]
    | progress cbv zeta
    | match goal with
      | |- flagless (match ?x with _ => _ end) => destruct x
      end ].

Lemma flagless_GetIpcPollHandle this callback :
  flagless (GetIpcPollHandle T this callback).
Proof.
  unfold GetIpcPollHandle, ClientConnectionState_GetIpcPollHandle,
    ServerConnectionState_GetIpcPollHandle, Connect, SendIpcAdvertise_V1,
    report, load, store.
  flagless_now.
Qed.

Lemma flagless_GetConnectedStream this callback :
  flagless (GetConnectedStream T this callback).
Proof.
  unfold GetConnectedStream, ClientConnectionState_GetConnectedStream,
    ServerConnectionState_GetConnectedStream, Accept, load, store.
  flagless_now.
Qed.

Lemma flagless_Reset this callback : flagless (Reset (W:=W) this callback).
Proof.
  unfold Reset, ClientConnectionState_Reset, ServerConnectionState_Reset,
    load, store.
  flagless_now.
Qed.

Lemma flagless_collect_handles callback n : ∀ i,
  flagless (collect_handles T callback i n).
Proof.
  induction n as [|n IH]; intros i; simpl; [apply flagless_ret|].
  apply flagless_bind; [apply flagless_GetIpcPollHandle|]. intros h.
  apply flagless_bind; [apply IH|]. intros rest.
  destruct h; apply flagless_ret.
Qed.

Lemma flagless_classify callback hs : ∀ p t,
  flagless (classify T K callback hs p t).
Proof.
  induction hs as [|h hs IH]; intros p t; simpl; [apply flagless_ret|].
  destruct (revents h); try apply IH; try apply flagless_ret.
  - destruct p; [apply IH|].
    apply flagless_bind; [apply flagless_GetConnectedStream|]. intros q. apply IH.
  - apply flagless_bind; [apply flagless_Reset|]. intros _. apply IH.
Qed.

Lemma flagless_iteration callback t : flagless (iteration T K callback t).
Proof.
  unfold iteration.
  apply flagless_bind; [apply flagless_get_connections|]. intros l.
  apply flagless_bind; [apply flagless_collect_handles|]. intros hb.
  destruct (next_poll_timeout K hb.2 t) as [t'|]; [|apply flagless_ret].
  unfold poll_and_classify, Poll.
  apply flagless_bind; [flagless_now|]. intros r.
  destruct (r.1 =? 0); [apply flagless_ret|].
  apply flagless_bind; [apply flagless_classify|]. intros c.
  destruct c as [|[s|] t'']; apply flagless_ret.
Qed.

(** X13.  [GetNextAvailableStream] neither reads nor writes the
    shutdown flag: on a factory whose flag is set it makes the same
    transport calls, ends the same way and leaves the same registry as
    on one whose flag is clear.  Only [HasActiveConnections] and
    [Shutdown] look at the flag. *)
Theorem GetNextAvailableStream_ignores_shutdown fuel callback b st :
  GetNextAvailableStream T K fuel callback (with_shutdown b st)
  = ((GetNextAvailableStream T K fuel callback st).1,
     with_shutdown b (GetNextAvailableStream T K fuel callback st).2).
Proof.
  unfold GetNextAvailableStream.
  assert (H : ∀ t, flagless (poll_loop T K fuel callback t)).
  { induction fuel as [|fuel IH]; intros t; simpl; [apply flagless_ret|].
    apply flagless_bind; [apply flagless_iteration|]. intros step.
    destruct step; [apply IH|apply flagless_ret..]. }
  apply H.
Qed.

End Flag.

(** ** Which connection is served *)

Section Priority.

Context {W : Type}.
Variable T : Transport W.
Variable K : PollTimeouts.

Implicit Types (st : State W) (callback : bool) (this : nat).

Lemma Reset_keeps_other_cache j callback st i s :
  j ≠ i → cached (s_rgpConnectionStates st) i s →
  cached (s_rgpConnectionStates (Reset j callback st).2) i s.
Proof.
  intros Hne [ipc0 Hc]. unfold Reset, load. simpl.
  destruct (s_rgpConnectionStates st !! j) as [[ipc [s'|]|ipc]|] eqn:E;
    simpl; exists ipc0; rewrite ?list_lookup_insert_ne; done.
Qed.

Lemma GetConnectedStream_cached callback st i s :
  cached (s_rgpConnectionStates st) i s →
  (GetConnectedStream T i callback st).1 = Some s.
Proof.
  intros [ipc Hc]. unfold GetConnectedStream, load. simpl. by rewrite Hc.
Qed.

(** In a pass, the first [SIGNALED] handle that belongs to a client
    with a cached stream decides the result, when no handle carries
    [ERR] and the handles before it belong to other connections. *)
Lemma classify_first_signaled callback hs1 h hs2 s : ∀ t st,
  Forall (fun h' => revents h' ≠ SIGNALED ∧ pUserData h' ≠ pUserData h) hs1 →
  revents h = SIGNALED →
  cached (s_rgpConnectionStates st) (pUserData h) s →
  ERR ∉ map revents (hs1 ++ h :: hs2) →
  ∃ t', (classify T K callback (hs1 ++ h :: hs2) None t st).1
          = Classify_done (Some s) t'.
Proof.
  induction hs1 as [|h1 hs1 IH]; intros t st Hpre Hsig Hc Herr; simpl.
  - rewrite Hsig. simpl.
    pose proof (GetConnectedStream_cached callback st _ _ Hc) as Hg.
    destruct (GetConnectedStream T (pUserData h) callback st) as [p st1].
    simpl in Hg. subst p.
    pose proof (classify_result T K callback hs2 (Some s) t st1) as Hr.
    destruct (classify T K callback hs2 (Some s) t st1) as [[|p t'] st2]; simpl in *.
    + exfalso. apply Herr. rewrite Hsig. apply elem_of_cons. by right.
    + destruct Hr as (_ & _ & _ & Hp). rewrite Hp by eauto. by eexists.
  - apply Forall_cons in Hpre as [[Hns Hne] Hpre].
    assert (Herr' : ERR ∉ map revents (hs1 ++ h :: hs2)).
    { intros ?. apply Herr. simpl. apply elem_of_cons. by right. }
    assert (Hne1 : revents h1 ≠ ERR).
    { intros E. apply Herr. simpl. rewrite E. apply elem_of_cons. by left. }
    destruct (revents h1) eqn:E; simpl; try done; try by apply IH.
    pose proof (Reset_keeps_other_cache (pUserData h1) callback st _ _ Hne Hc) as Hc'.
    destruct (Reset (pUserData h1) callback st) as [u st1]. by apply IH.
Qed.

Lemma write_revents_owner hs : ∀ rs,
  map pUserData (write_revents hs rs) = map pUserData hs
  ∧ map pStream (write_revents hs rs) = map pStream hs.
Proof.
  induction hs as [|h hs IH]; intros [|r rs]; simpl; try done.
  destruct (IH rs) as [-> ->]. done.
Qed.

Lemma write_revents_lookup hs : ∀ rs i h,
  write_revents hs rs !! i = Some h →
  ∃ h0, hs !! i = Some h0 ∧ pUserData h0 = pUserData h ∧ pStream h0 = pStream h.
Proof.
  induction hs as [|h1 hs IH]; intros rs i h Hl; [by destruct rs|].
  destruct rs as [|r rs]; [by exists h|].
  destruct i as [|i]; simpl in *.
  - simplify_eq. by exists h1.
  - by apply (IH rs).
Qed.

Lemma sorted_prefix_differs {A} (f : A → nat) (l1 : list A) x l2 :
  StronglySorted lt (map f (l1 ++ x :: l2)) → Forall (fun y => f y ≠ f x) l1.
Proof.
  induction l1 as [|y l1 IH]; intros Hs; [constructor|].
  simpl in Hs. apply StronglySorted_inv in Hs as [Hs Hy].
  constructor; [|by apply IH].
  assert (f y < f x)%nat; [|lia].
  eapply (proj1 (List.Forall_forall _ _) Hy).
  apply in_map. apply in_or_app. right. by left.
Qed.

(** X14.  Connections are served in registration order.  In a round
    whose [Poll] returns non-zero and marks no handle [ERR], if the
    first handle marked [SIGNALED] is a client's and holds stream [s],
    the call returns [s] in that round, whatever the later handles
    carry. *)
Theorem first_signaled_client_is_served callback t st hs1 h hs2 timeout retval s :
  polls (new_events st (iteration T K callback t st).2)
    = [(hs1 ++ h :: hs2, timeout, retval)] →
  retval ≠ 0 →
  Forall (fun h' => revents h' ≠ SIGNALED) hs1 →
  revents h = SIGNALED →
  pStream h = Some s →
  ERR ∉ map revents (hs1 ++ h :: hs2) →
  (iteration T K callback t st).1 = Return (Some s).
Proof.
  intros Hp Hrv Hpre Hsig Hps Herr. revert Hp. unfold iteration. simpl.
  pose proof (collect_handles_quiet T callback (length (s_rgpConnectionStates st)) 0 st)
    as (_ & _ & _ & evs1 & Ht1 & Hp1).
  pose proof (collect_handles_in_order T callback (length (s_rgpConnectionStates st)) 0 st)
    as [Hsort Hown].
  destruct (collect_handles T callback 0 _ st) as [[hs b] st1]. simpl in *.
  destruct (next_poll_timeout K b t) as [t'|]; simpl.
  2:{ rewrite (new_events_app _ _ _ Ht1), Hp1. done. }
  unfold poll_and_classify, Poll, ask. simpl.
  destruct (ipc_Poll T hs t' (world st1)) as [[rv rs] w]. simpl.
  destruct (write_revents_owner hs rs) as [Hud Hst].
  destruct (rv =? 0) eqn:Erv; simpl.
  { intros Hp. rewrite Ht1, <- app_assoc in Hp.
    rewrite new_events_record, polls_more, Hp1 in Hp. simpl in Hp.
    apply Z.eqb_eq in Erv. by simplify_eq. }
  match goal with |- context [classify T K callback ?hh None t' ?s2] =>
    pose proof (classify_quiet T K callback hh None t' s2) as (_ & _ & _ & evs3 & Ht3 & Hp3);
    pose proof (fun Hc Hd => classify_first_signaled callback hs1 h hs2 s t' s2 Hd Hsig Hc Herr)
      as Hfirst;
    destruct (classify T K callback hh None t' s2) as [c st3] eqn:Ec
  end.
  simpl in *. intros Hp.
  assert (Htr : trace st3 = trace st ++ evs1
                  ++ EvPoll (write_revents hs rs) t' rv :: evs3).
  { rewrite Ht3, Ht1, <- !app_assoc. done. }
  assert (Hp' : polls (new_events st st3) = [(hs1 ++ h :: hs2, timeout, retval)])
    by (by destruct c as [|[?|] ?]).
  rewrite (new_events_app _ _ _ Htr), polls_more, Hp1 in Hp'. simpl in Hp'.
  rewrite Hp3 in Hp'. simplify_eq.
  match goal with H : write_revents hs rs = _ |- _ => rename H into Hw end.
  rewrite Hw in Ec, Hud.
  assert (Hc : cached (s_rgpConnectionStates st1) (pUserData h) s).
  { assert (Hin : ∃ h0, h0 ∈ hs ∧ pUserData h0 = pUserData h ∧ pStream h0 = pStream h).
    { assert (Hl : write_revents hs rs !! length hs1 = Some h)
        by (by rewrite Hw, lookup_app_r, Nat.sub_diag by lia).
      destruct (write_revents_lookup _ _ _ _ Hl) as (h0 & E0 & ? & ?).
      exists h0. split; [by eapply list_elem_of_lookup_2|done]. }
    destruct Hin as (h0 & Hin & Hu0 & Hs0).
    pose proof (proj1 (Forall_forall _ _) Hown h0 Hin) as (_ & _ & Hback).
    rewrite <- Hu0. destruct Hback as [(s0 & Hps0 & _ & Hc0)|(ipc & _ & Hn & _)].
    - rewrite Hs0, Hps in Hps0. by simplify_eq.
    - rewrite Hs0, Hps in Hn. done. }
  assert (Hd : Forall (fun h' => revents h' ≠ SIGNALED ∧ pUserData h' ≠ pUserData h) hs1).
  { rewrite <- Hud in Hsort.
    pose proof (sorted_prefix_differs _ _ _ _ Hsort) as Hdiff.
    apply Forall_and. split; [done|exact Hdiff]. }
  destruct (Hfirst Hc Hd) as [t'' Hres]. rewrite Hw, Ec in Hres. simpl in Hres.
  by subst c.
Qed.

End Priority.


(** ** The further properties on the scenarios *)

Section MoreScenarios.

Import Scripted.

Lemma two_clients_tidy w : tidy [] (two_clients w).
Proof.
  apply (CreateClient_tidy transport [] "pipeB" true
           (CreateClient transport "pipeA" true (start (Yes :: Yes :: w))).2).
  apply CreateClient_tidy, tidy_initial.
Qed.

Lemma round_of_pollable_connections_witness :
  Forall (fun c => pollable c = true) (s_rgpConnectionStates (connected_client []))
  ∧ (iteration transport runtime_timeouts true 457 (connected_client [])).1 ≠ Undefined.
Proof.
  assert (H : Forall (fun c => pollable c = true)
                (s_rgpConnectionStates (connected_client [])))
    by (repeat constructor).
  split; [exact H|].
  exact (proj1 (round_of_pollable_connections transport runtime_timeouts true 457
                  (connected_client []) H)).
Defined.

Lemma servers_never_back_off_witness :
  Forall (fun c => is_server c = true)
    (s_rgpConnectionStates (two_servers second_server_ready_script))
  ∧ (GetNextAvailableStream transport runtime_timeouts 4 true
       (two_servers second_server_ready_script)).1 = Returned (Some 0%nat)
  ∧ s_rgpConnectionStates
      (GetNextAvailableStream transport runtime_timeouts 4 true
         (two_servers second_server_ready_script)).2
    = s_rgpConnectionStates (two_servers second_server_ready_script).
Proof.
  assert (H : Forall (fun c => is_server c = true)
                (s_rgpConnectionStates (two_servers second_server_ready_script)))
    by (repeat constructor).
  split; [exact H|]. split; [vm_compute; reflexivity|].
  exact (proj1 (servers_never_back_off transport runtime_timeouts 4 true
                  (two_servers second_server_ready_script) H)).
Defined.

Lemma no_stream_is_destroyed_twice_witness :
  tidy [] (two_clients hangup_script)
  ∧ NoDup (deleted (trace (GetNextAvailableStream transport runtime_timeouts 2 true
                             (two_clients hangup_script)).2)).
Proof.
  split; [apply two_clients_tidy|].
  exact (no_stream_is_destroyed_twice transport runtime_timeouts 2 true []
           (two_clients hangup_script) (two_clients_tidy _)).
Defined.

Lemma handed_streams_are_left_alone_witness :
  tidy [] (two_clients hangup_and_signaled_script)
  ∧ (GetNextAvailableStream transport runtime_timeouts 2 true
       (two_clients hangup_and_signaled_script)).1 = Returned (Some 1%nat)
  ∧ (1%nat ∉ deleted (trace (GetNextAvailableStream transport runtime_timeouts 2 true
                               (two_clients hangup_and_signaled_script)).2)).
Proof.
  assert (H : (GetNextAvailableStream transport runtime_timeouts 2 true
                 (two_clients hangup_and_signaled_script)).1 = Returned (Some 1%nat))
    by (vm_compute; reflexivity).
  split; [apply two_clients_tidy|]. split; [exact H|].
  exact (proj1 (proj2 (handed_streams_are_left_alone transport runtime_timeouts 2 true []
                         (two_clients hangup_and_signaled_script)
                         (two_clients_tidy _)) 1%nat H)).
Defined.

Lemma absent_peers_follow_the_backoff_witness :
  (∀ ipc w, (ipc_Connect absent_peers ipc w).1 = false)
  ∧ s_rgpConnectionStates lonely_client ≠ []
  ∧ Forall (fun c => disconnected c = true) (s_rgpConnectionStates lonely_client)
  ∧ backoff runtime_timeouts 20 (s_pollTimeoutInfinite runtime_timeouts)
    = map Some runtime_backoff
  ∧ map poll_timeout
      (polls (new_events lonely_client
         (GetNextAvailableStream absent_peers runtime_timeouts 20 true
            lonely_client).2)) = runtime_backoff.
Proof.
  assert (H1 : ∀ ipc w, (ipc_Connect absent_peers ipc w).1 = false)
    by (intros; reflexivity).
  assert (H2 : s_rgpConnectionStates lonely_client ≠ []) by discriminate.
  assert (H3 : Forall (fun c => disconnected c = true)
                 (s_rgpConnectionStates lonely_client))
    by (repeat constructor).
  assert (H4 : backoff runtime_timeouts 20 (s_pollTimeoutInfinite runtime_timeouts)
               = map Some runtime_backoff)
    by (vm_compute; reflexivity).
  split; [exact H1|]. split; [exact H2|]. split; [exact H3|]. split; [exact H4|].
  exact (proj1 (proj2 (absent_peers_follow_the_backoff absent_peers runtime_timeouts
                         20 true lonely_client runtime_backoff H1 H2 H3 H4))).
Defined.

Lemma runtime_values_closed :
  ∀ t, t ∈ runtime_timeout_values →
       ∃ t', GetNextTimeout runtime_timeouts t = Some t' ∧ t' ∈ runtime_timeout_values.
Proof.
  intros t Ht.
  assert (Hall : forallb stays_in_runtime_values runtime_timeout_values = true)
    by (vm_compute; reflexivity).
  rewrite forallb_forall in Hall. apply list_elem_of_In in Ht.
  specialize (Hall t Ht). unfold stays_in_runtime_values in Hall.
  destruct (GetNextTimeout runtime_timeouts t) as [t'|]; [|done].
  exists t'. split; [done|]. by apply bool_decide_eq_true in Hall.
Qed.

Lemma timeouts_stay_in_closed_set_witness :
  (∀ t, t ∈ runtime_timeout_values →
        ∃ t', GetNextTimeout runtime_timeouts t = Some t' ∧ t' ∈ runtime_timeout_values)
  ∧ s_pollTimeoutMinMs runtime_timeouts ∈ runtime_timeout_values
  ∧ (GetNextAvailableStream transport runtime_timeouts 3 true
       (two_clients hangup_script)).1 ≠ UndefinedBehaviour.
Proof.
  assert (H2 : s_pollTimeoutMinMs runtime_timeouts ∈ runtime_timeout_values).
  { apply elem_of_cons. right. apply elem_of_cons. by left. }
  split; [exact runtime_values_closed|]. split; [exact H2|].
  exact (proj1 (timeouts_stay_in_closed_set transport runtime_timeouts
                  (fun t => t ∈ runtime_timeout_values) 3 true
                  (two_clients hangup_script) runtime_values_closed H2)).
Defined.

Lemma first_signaled_client_is_served_witness :
  polls (new_events (two_clients hangup_and_signaled_script)
           (iteration transport runtime_timeouts true (-1)
              (two_clients hangup_and_signaled_script)).2)
    = [([{| pIpc := None; pStream := Some 0%nat; revents := HANGUP; pUserData := 0 |}]
          ++ {| pIpc := None; pStream := Some 1%nat; revents := SIGNALED;
                pUserData := 1 |} :: [],
        -1, 2)]
  ∧ (iteration transport runtime_timeouts true (-1)
       (two_clients hangup_and_signaled_script)).1 = Return (Some 1%nat).
Proof.
  assert (H1 : polls (new_events (two_clients hangup_and_signaled_script)
                 (iteration transport runtime_timeouts true (-1)
                    (two_clients hangup_and_signaled_script)).2)
    = [([{| pIpc := None; pStream := Some 0%nat; revents := HANGUP; pUserData := 0 |}]
          ++ {| pIpc := None; pStream := Some 1%nat; revents := SIGNALED;
                pUserData := 1 |} :: [],
        -1, 2)])
    by (vm_compute; reflexivity).
  assert (H2 : (2 : Z) ≠ 0) by discriminate.
  assert (H3 : Forall (fun h' => revents h' ≠ SIGNALED)
                 [{| pIpc := None; pStream := Some 0%nat; revents := HANGUP;
                     pUserData := 0 |}])
    by (repeat constructor; discriminate).
  assert (H4 : ERR ∉ map revents
                 ([{| pIpc := None; pStream := Some 0%nat; revents := HANGUP;
                      pUserData := 0 |}]
                    ++ {| pIpc := None; pStream := Some 1%nat; revents := SIGNALED;
                          pUserData := 1 |} :: [])).
  { simpl. intros H. apply elem_of_cons in H as [H|H]; [discriminate|].
    apply list_elem_of_singleton in H. discriminate. }
  split; [exact H1|].
  exact (first_signaled_client_is_served transport runtime_timeouts true (-1)
           (two_clients hangup_and_signaled_script) _ _ _ _ _ 1%nat
           H1 H2 H3 eq_refl eq_refl H4).
Defined.

End MoreScenarios.


(** ** Streams that are claimed when a poll error ends the call *)

Section Accounting.

Context {W : Type}.
Variable T : Transport W.
Variable K : PollTimeouts.

Implicit Types (st : State W) (callback : bool) (this : nat).

Lemma cached_insert_other (l : list ConnectionState) i c j s :
  j ≠ i → cached l j s → cached (<[i:=c]> l) j s.
Proof. intros Hne [ipc H]. exists ipc. by rewrite list_lookup_insert_ne. Qed.

Lemma accounted_own_cache_fresh out l n del i ipc :
  l !! i = Some (ClientConnectionState ipc None) →
  accounted_own out l n del →
  accounted_own out (<[i:=ClientConnectionState ipc (Some n)]> l) (S n) del.
Proof.
  intros Hi Hacc s Hs. destruct (decide (s = n)) as [->|Hne].
  - left. exists i, ipc. apply list_lookup_insert_eq. by eapply lookup_lt_Some.
  - destruct (Hacc s ltac:(lia)) as [[j Hc]|H]; [|by right].
    left. exists j. apply cached_insert_other; [|done].
    intros ->. destruct Hc as [ipc' Hc]. rewrite Hi in Hc. by simplify_eq.
Qed.

Lemma accounted_own_delete_fresh out l n del :
  accounted_own out l n del → accounted_own out l (S n) (del ++ [n]).
Proof.
  intros Hacc s Hs. destruct (decide (s = n)) as [->|Hne].
  - right. left. rewrite elem_of_app, list_elem_of_singleton. by right.
  - destruct (Hacc s ltac:(lia)) as [?|[?|?]]; [by left| |by right; right].
    right. left. rewrite elem_of_app. by left.
Qed.

Lemma accounted_own_reset out l n del i ipc c :
  l !! i = Some (ClientConnectionState ipc c) →
  accounted_own out l n del →
  accounted_own out (<[i:=ClientConnectionState ipc None]> l) n (del ++ option_list c).
Proof.
  intros Hi Hacc s Hs.
  destruct (Hacc s Hs) as [[j Hc]|[?|?]]; [| |by right; right].
  - destruct (decide (j = i)) as [->|Hne].
    + destruct Hc as [ipc' Hc]. rewrite Hi in Hc. simplify_eq.
      right. left. rewrite elem_of_app. right. simpl.
      by apply list_elem_of_singleton.
    + left. exists j. by apply cached_insert_other.
  - right. left. rewrite elem_of_app. by left.
Qed.

Lemma accounted_own_claim out l n del i ipc c :
  l !! i = Some (ClientConnectionState ipc c) →
  accounted_own out l n del →
  accounted_own (option_list c ++ out) (<[i:=ClientConnectionState ipc None]> l) n del.
Proof.
  intros Hi Hacc s Hs.
  destruct (Hacc s Hs) as [[j Hc]|[?|?]]; [|by right; left|].
  - destruct (decide (j = i)) as [->|Hne].
    + destruct Hc as [ipc' Hc]. rewrite Hi in Hc. simplify_eq.
      right. right. rewrite elem_of_app. left. simpl.
      by apply list_elem_of_singleton.
    + left. exists j. by apply cached_insert_other.
  - right. right. rewrite elem_of_app. by right.
Qed.

Lemma accounted_own_accept out l n del :
  accounted_own out l n del → accounted_own (n :: out) l (S n) del.
Proof.
  intros Hacc s Hs. destruct (decide (s = n)) as [->|Hne].
  - right. right. apply elem_of_cons. by left.
  - destruct (Hacc s ltac:(lia)) as [?|[?|?]]; [by left|by right; left|].
    right. right. apply elem_of_cons. by right.
Qed.

Ltac accounted_now :=
  unfold accounted in *; simpl; rewrite ?deleted_more; simpl; rewrite ?app_nil_r;
  eauto using accounted_own_cache_fresh, accounted_own_delete_fresh,
    accounted_own_accept.

Lemma GetIpcPollHandle_accounted out this callback st :
  accounted out st → accounted out (GetIpcPollHandle T this callback st).2.
Proof.
  intros Hacc. unfold GetIpcPollHandle, load. simpl.
  destruct (s_rgpConnectionStates st !! this) as [[ipc [s|]|ipc]|] eqn:E;
    simpl; try done.
  unfold ClientConnectionState_GetIpcPollHandle, Connect, SendIpcAdvertise_V1,
    report, ask, store.
  take_answers T; accounted_now.
Qed.

Lemma Reset_accounted out this callback st :
  accounted out st → accounted out (Reset this callback st).2.
Proof.
  intros Hacc. unfold Reset, load. simpl.
  destruct (s_rgpConnectionStates st !! this) as [[ipc c|ipc]|] eqn:E;
    simpl; try done.
  pose proof (accounted_own_reset _ _ _ _ _ _ _ E Hacc) as H.
  destruct c as [s|]; simpl in *; rewrite ?app_nil_r in H; accounted_now.
Qed.

Lemma GetConnectedStream_accounted out this callback st :
  accounted out st →
  accounted (option_list (GetConnectedStream T this callback st).1 ++ out)
            (GetConnectedStream T this callback st).2.
Proof.
  intros Hacc. unfold GetConnectedStream, load. simpl.
  destruct (s_rgpConnectionStates st !! this) as [[ipc c|ipc]|] eqn:E;
    simpl; try done.
  - apply (accounted_own_claim _ _ _ _ _ _ _ E Hacc).
  - unfold ServerConnectionState_GetConnectedStream, Accept, ask.
    take_answers T; accounted_now.
Qed.

Lemma collect_handles_accounted out callback n : ∀ i st,
  accounted out st → accounted out (collect_handles T callback i n st).2.
Proof.
  induction n as [|n IH]; intros i st Hacc; simpl; [done|].
  pose proof (GetIpcPollHandle_accounted out i callback st Hacc) as H1.
  destruct (GetIpcPollHandle T i callback st) as [h st1].
  pose proof (IH (S i) st1 H1) as H2.
  destruct (collect_handles T callback (S i) n st1) as [rest st2].
  by destruct h.
Qed.

(** The pass over the handles keeps every stream accounted for as long
    as the pending stream counts; a pass ended by [ERR] forgets the
    pending stream, so the account is kept only with it added. *)
Lemma classify_accounted out callback hs : ∀ pStream pollTimeoutMs st,
  accounted (option_list pStream ++ out) st →
  match (classify T K callback hs pStream pollTimeoutMs st).1 with
  | PollError =>
      ∃ lost, (length lost ≤ 1)%nat
        ∧ accounted (lost ++ out) (classify T K callback hs pStream pollTimeoutMs st).2
  | Classify_done p _ =>
      accounted (option_list p ++ out)
        (classify T K callback hs pStream pollTimeoutMs st).2
  end.
Proof.
  induction hs as [|h hs IH]; intros p t st Hacc; simpl; [done|].
  destruct (revents h); simpl; try by apply IH.
  - destruct p as [s|]; [by apply IH|]. simpl.
    pose proof (GetConnectedStream_accounted out (pUserData h) callback st Hacc) as H1.
    destruct (GetConnectedStream T (pUserData h) callback st) as [p st1].
    by apply IH.
  - pose proof (Reset_accounted _ (pUserData h) callback st Hacc) as H1.
    destruct (Reset (pUserData h) callback st) as [u st1].
    by apply IH.
  - exists (option_list p). split; [destruct p; simpl; lia|done].
Qed.

Lemma iteration_accounted out callback pollTimeoutMs st :
  accounted out st →
  match (iteration T K callback pollTimeoutMs st).1 with
  | Return (Some s) => accounted (s :: out) (iteration T K callback pollTimeoutMs st).2
  | Return None =>
      ∃ lost, (length lost ≤ 1)%nat
        ∧ accounted (lost ++ out) (iteration T K callback pollTimeoutMs st).2
  | _ => accounted out (iteration T K callback pollTimeoutMs st).2
  end.
Proof.
  intros Hacc. unfold iteration. simpl.
  pose proof (collect_handles_accounted out callback
                (length (s_rgpConnectionStates st)) 0 st Hacc) as H1.
  destruct (collect_handles T callback 0 _ st) as [[hs b] st1]. simpl in *.
  destruct (next_poll_timeout K b pollTimeoutMs) as [t|]; simpl; [|done].
  unfold poll_and_classify, Poll, ask. simpl.
  destruct (ipc_Poll T hs t (world st1)) as [[retval rs] w]. simpl.
  destruct (retval =? 0); simpl; [accounted_now|].
  match goal with |- context [classify T K callback ?h None t ?s] =>
    pose proof (classify_accounted out callback h None t s) as H;
    destruct (classify T K callback h None t s) as [c st3]
  end.
  simpl in H. destruct c as [|[s|] t']; simpl in *; apply H; accounted_now.
Qed.

(** Every stream the factory has made stays accounted for (cached,
    destroyed, or handed to a caller) on every way out of
    [GetNextAvailableStream] but one: the null return on [ERR], which
    may leave the one stream that was pending without owner. *)
Lemma streams_stay_accounted_unless_poll_error fuel callback out st :
  accounted out st →
  match (GetNextAvailableStream T K fuel callback st).1 with
  | Returned (Some s) =>
      accounted (s :: out) (GetNextAvailableStream T K fuel callback st).2
  | Returned None =>
      ∃ lost, (length lost ≤ 1)%nat
        ∧ accounted (lost ++ out) (GetNextAvailableStream T K fuel callback st).2
  | _ => accounted out (GetNextAvailableStream T K fuel callback st).2
  end.
Proof.
  unfold GetNextAvailableStream. generalize (s_pollTimeoutInfinite K) as t.
  revert st. induction fuel as [|fuel IH]; intros st t Hacc; simpl; [done|].
  pose proof (iteration_accounted out callback t st Hacc) as H1.
  destruct (iteration T K callback t st) as [step st1]. simpl in *.
  destruct step as [t'|[s|]|]; simpl; [by apply IH|done..].
Qed.

End Accounting.

Section PollError.

Import Scripted.

(** C3.  The code breaks the claim.  Two clients connect; [Poll] marks
    the first [SIGNALED] and the second [ERR].  The call returns null,
    as the claim says, but not before [GetConnectedStream] has taken
    stream 0 out of the first client's cache: on return stream 0, made
    and advertised during the call, is in no cache, was not destroyed
    and was handed to no caller, so the streams made are no longer all
    accounted for, although they were before the call.  The next call
    opens another connection for the first client (stream 2) while
    stream 0 is still open. *)
Theorem poll_error_drops_the_claimed_stream :
  accounted [] (two_clients signaled_and_error_then_retry_script)
  ∧ (GetNextAvailableStream transport runtime_timeouts 3 true
       (two_clients signaled_and_error_then_retry_script)).1 = Returned None
  ∧ new_events (two_clients signaled_and_error_then_retry_script)
      (GetNextAvailableStream transport runtime_timeouts 3 true
         (two_clients signaled_and_error_then_retry_script)).2
    = [EvConnect 0%nat (Some 0%nat); EvAdvertise 0%nat true;
       EvConnect 1%nat (Some 1%nat); EvAdvertise 1%nat true;
       EvPoll [{| pIpc := None; pStream := Some 0%nat; revents := SIGNALED;
                  pUserData := 0 |};
               {| pIpc := None; pStream := Some 1%nat; revents := ERR;
                  pUserData := 1 |}] (-1) 2]
  ∧ s_rgpConnectionStates
      (GetNextAvailableStream transport runtime_timeouts 3 true
         (two_clients signaled_and_error_then_retry_script)).2
    = [ClientConnectionState 0%nat None; ClientConnectionState 1%nat (Some 1%nat)]
  ∧ (∀ i, ¬ cached (s_rgpConnectionStates
                      (GetNextAvailableStream transport runtime_timeouts 3 true
                         (two_clients signaled_and_error_then_retry_script)).2) i 0%nat)
  ∧ deleted (trace (GetNextAvailableStream transport runtime_timeouts 3 true
                      (two_clients signaled_and_error_then_retry_script)).2) = []
  ∧ ¬ accounted [] (GetNextAvailableStream transport runtime_timeouts 3 true
                      (two_clients signaled_and_error_then_retry_script)).2
  ∧ head (new_events
            (GetNextAvailableStream transport runtime_timeouts 3 true
               (two_clients signaled_and_error_then_retry_script)).2
            (GetNextAvailableStream transport runtime_timeouts 3 true
               (GetNextAvailableStream transport runtime_timeouts 3 true
                  (two_clients signaled_and_error_then_retry_script)).2).2)
    = Some (EvConnect 0%nat (Some 2%nat)).
Proof.
  assert (Hreg : s_rgpConnectionStates
      (GetNextAvailableStream transport runtime_timeouts 3 true
         (two_clients signaled_and_error_then_retry_script)).2
    = [ClientConnectionState 0%nat None; ClientConnectionState 1%nat (Some 1%nat)])
    by (vm_compute; reflexivity).
  assert (Hdel : deleted (trace (GetNextAvailableStream transport runtime_timeouts 3 true
                      (two_clients signaled_and_error_then_retry_script)).2) = [])
    by (vm_compute; reflexivity).
  assert (Hnext : next_stream (GetNextAvailableStream transport runtime_timeouts 3 true
                      (two_clients signaled_and_error_then_retry_script)).2 = 2%nat)
    by (vm_compute; reflexivity).
  assert (Hnc : ∀ i, ¬ cached (s_rgpConnectionStates
                      (GetNextAvailableStream transport runtime_timeouts 3 true
                         (two_clients signaled_and_error_then_retry_script)).2) i 0%nat).
  { intros i [ipc H]. rewrite Hreg in H.
    destruct i as [|[|i]]; simpl in H; discriminate. }
  split_and!.
  - intros s Hs. vm_compute in Hs. lia.
  - vm_compute; reflexivity.
  - vm_compute; reflexivity.
  - exact Hreg.
  - exact Hnc.
  - exact Hdel.
  - intros Hacc. unfold accounted in Hacc. rewrite Hdel, Hnext in Hacc.
    destruct (Hacc 0%nat ltac:(lia)) as [[i Hc]|[Hd|Ho]].
    + by apply (Hnc i).
    + by apply elem_of_nil in Hd.
    + by apply elem_of_nil in Ho.
  - vm_compute; reflexivity.
Qed.

End PollError.
